(** * Simple Banking System: card numbers, Luhn checksums and the ledger

    A shallow embedding of [banking.py] (and of the older [account.py]):
    Python strings are [string]s, Python integers are [Z], lists that the
    code updates by index are stdpp lists with lookup and insert, the
    [card] table of the sqlite database is the list of its rows, and an
    uncaught Python exception is the [Raise] outcome of a small error
    monad.

    Characters are bytes and the digits are the ten ASCII digits.  The
    console is read after parsing: a menu choice or an amount is the
    integer that [int(input())] returned, a card number or PIN is the
    stripped line.  [random.randint] is an oracle whose results are
    arguments.  Printing is left out, except that [do_transfer] returns
    which of its messages it printed. *)

From Stdlib Require Import ZArith Lia Ascii.
From stdpp Require Import base list strings.

Local Open Scope Z_scope.

(** ** Exceptions *)

Inductive exn : Type :=
| ValueError      (* int() of a character that is not a digit *)
| IndexError      (* list index out of range *)
| TypeError       (* None used as a number or subscripted *)
| OverflowError.  (* Python int too large to convert to SQLite INTEGER *)

Inductive res (A : Type) : Type :=
| Ok (a : A)
| Raise (e : exn).
Arguments Ok {A} a.
Arguments Raise {A} e.

#[global] Instance res_ret : MRet res := fun A a => Ok a.
#[global] Instance res_bind : MBind res := fun A B k m =>
  match m with
  | Ok a => k a
  | Raise e => Raise e
  end.

(** ** Strings and digits *)

(** [int(y)] for a one-character string [y]. *)
Definition int_of_char (c : ascii) : res Z :=
  let n := Z.of_N (N_of_ascii c) in
  if (48 <=? n) && (n <=? 57) then Ok (n - 48) else Raise ValueError.

(** [[int(y) for y in x]] *)
Fixpoint ints_of_chars (cs : list ascii) : res (list Z) :=
  match cs with
  | [] => Ok []
  | c :: cs' =>
      n ← int_of_char c;
      ns ← ints_of_chars cs';
      Ok (n :: ns)
  end.

Definition int_list (x : string) : res (list Z) :=
  ints_of_chars (String.list_ascii_of_string x).

(** The value of a list of decimal digits, most significant first. *)
Definition int_of_digits (ds : list Z) : Z :=
  foldl (fun acc d => 10 * acc + d) 0 ds.

(** [int(s)] for a string [s] of decimal digits without sign, blanks or
    underscores, the strings the program converts. *)
Definition int_of_str (s : string) : res Z :=
  ds ← int_list s;
  match ds with
  | [] => Raise ValueError
  | _ => Ok (int_of_digits ds)
  end.

Definition digit_char (d : N) : ascii := ascii_of_N (48 + d).

(** Decimal digits of a natural number, most significant first. *)
Fixpoint decimal_digits (fuel : nat) (n : N) : list ascii :=
  match fuel with
  | O => []
  | S f =>
      (if (n <? 10)%N then [] else decimal_digits f (n / 10)%N)
        ++ [digit_char (n mod 10)%N]
  end.

(** [str(n)] for [n >= 0]: a number has no more decimal digits than bits. *)
Definition str_N (n : N) : string :=
  String.string_of_list_ascii (decimal_digits (S (N.to_nat (N.log2 n))) n).

(** [str(z)], as an f-string field [{z}] renders an integer. *)
Definition str (z : Z) : string :=
  if z <? 0 then "-" +:+ str_N (Z.abs_N z) else str_N (Z.to_N z).

Definition zfill (width : nat) (s : string) : string :=
  String.string_of_list_ascii (replicate (width - String.length s)%nat "0"%char) +:+ s.

(** ['{:0wd}'.format(z)]: zero padding to [w] characters, sign included. *)
Definition format_0d (w : nat) (z : Z) : string :=
  if z <? 0 then "-" +:+ zfill (w - 1) (str_N (Z.abs_N z))
  else zfill w (str_N (Z.to_N z)).

(** ** Python list operations used by the checksum code *)

(** [l[i]], a negative index counting from the end. *)
Definition py_getitem (l : list Z) (i : Z) : res Z :=
  let j := if i <? 0 then i + Z.of_nat (length l) else i in
  if j <? 0 then Raise IndexError
  else match l !! Z.to_nat j with
       | Some v => Ok v
       | None => Raise IndexError
       end.

(** [del l[i]] *)
Definition py_delitem (l : list Z) (i : Z) : res (list Z) :=
  let j := if i <? 0 then i + Z.of_nat (length l) else i in
  if j <? 0 then Raise IndexError
  else match l !! Z.to_nat j with
       | Some _ => Ok (delete (Z.to_nat j) l)
       | None => Raise IndexError
       end.

(** [sum(l)] *)
Definition py_sum (l : list Z) : Z := foldl Z.add 0 l.

(** One iteration of
    [for i, num in enumerate(x_list): if i % 2 == 0: x_list[i] = num * 2]. *)
Definition double_step (x_list : list Z) (i : nat) : list Z :=
  match x_list !! i with
  | Some num => if Z.of_nat i mod 2 =? 0 then <[i := num * 2]> x_list else x_list
  | None => x_list
  end.

Definition double_even_indices (x_list : list Z) : list Z :=
  foldl double_step x_list (seq 0 (length x_list)).

(** One iteration of
    [for i in range(len(x_list)): if x_list[i] > 9: x_list[i] -= 9]. *)
Definition subtract_step (x_list : list Z) (i : nat) : list Z :=
  match x_list !! i with
  | Some v => if 9 <? v then <[i := v - 9]> x_list else x_list
  | None => x_list
  end.

Definition subtract_nine (x_list : list Z) : list Z :=
  foldl subtract_step x_list (seq 0 (length x_list)).

(** ** [class Account] of banking.py: the Luhn part *)

(** [Account.generate_checksum], as a function of [self.account_number]. *)
Definition generate_checksum (account_number : string) : res Z :=
  let x := "400000" +:+ account_number in
  x_list ← int_list x;
  let x_list := double_even_indices x_list in
  let x_list := subtract_nine x_list in
  let control := py_sum x_list in
  Ok ((10 - (control mod 10)) mod 10).

(** [Account.generate_card_number] *)
Definition generate_card_number (account_number : string) (checksum : Z) : string :=
  "400000" +:+ account_number +:+ str checksum.

(** [passes_luhn] *)
Definition passes_luhn (card_num : string) : res bool :=
  card_num_list ← int_list card_num;
  checksum ← py_getitem card_num_list (Z.of_nat (length card_num_list) - 1);
  card_num_list ← py_delitem card_num_list (Z.of_nat (length card_num_list) - 1);
  let card_num_list := double_even_indices card_num_list in
  let card_num_list := subtract_nine card_num_list in
  let control := py_sum card_num_list in
  let final_sum := control + checksum in
  Ok (final_sum mod 10 =? 0).

(** ** The [card] table

    [CREATE TABLE card (id INTEGER, number TEXT, pin TEXT, balance INTEGER
    DEFAULT 0)]: no key and no uniqueness constraint, so the table is the
    list of its rows, oldest first, and two rows may carry the same
    number.  [create_card] binds the account number to [id]; no query of
    the program filters on or reads that column. *)

Record row : Type := {
  id : string;
  number : string;
  pin : string;
  balance : Z
}.

Abbreviation database := (list row).

Definition with_balance (r : row) (b : Z) : row :=
  {| id := id r; number := number r; pin := pin r; balance := b |}.

(** [SELECT ... FROM card WHERE number=?] *)
Definition select_by_number (db : database) (card_num : string) : list row :=
  filter (fun r => number r = card_num) db.

(** [cursor.fetchone()] *)
Definition fetchone {A} (rows : list A) : option A := head rows.

(** A Python int is bound to a statement as a signed 64-bit INTEGER. *)
Definition sqlite_integer (z : Z) : bool := (- 2 ^ 63 <=? z) && (z <? 2 ^ 63).

(** [UPDATE card SET balance=? WHERE number=?] *)
Definition update_rows (db : database) (card_num : string) (b : Z) : database :=
  map (fun r => if decide (number r = card_num) then with_balance r b else r) db.

(** [get_balance]: [None] when the card number is not in the table. *)
Definition get_balance (db : database) (card_num : string) : option Z :=
  match fetchone (select_by_number db card_num) with
  | None => None
  | Some r => Some (balance r)
  end.

(** [update_balance]: subscripting the [None] of an absent card raises
    before anything is written. *)
Definition update_balance (db : database) (card_num : string) (amount : Z)
  : res database :=
  match fetchone (select_by_number db card_num) with
  | None => Raise TypeError
  | Some r =>
      let current_balance := balance r in
      if sqlite_integer (current_balance + amount)
      then Ok (update_rows db card_num (current_balance + amount))
      else Raise OverflowError
  end.

(** [close_account] *)
Definition close_account (db : database) (card_num : string) : database :=
  filter (fun r => number r <> card_num) db.

(** ** Creating a card

    [random.randint] is an oracle: [draws] lists the successive results of
    [random.randint(0, 999999999)] and [pin_draw] is the result of
    [random.randint(0, 9999)]. *)

Record Account : Type := {
  account_number : string;
  checksum : Z;
  card_number : string;
  acc_pin : string;
  acc_balance : Z
}.

(** [Account.generate_account_number]: the draw is looked up in the
    [number] column and redrawn while a row is found.  [None] only when
    the listed draws are used up. *)
Fixpoint generate_account_number (db : database) (draws : list Z) : option string :=
  match draws with
  | [] => None
  | d :: draws' =>
      let number := format_0d 9 d in
      match fetchone (select_by_number db number) with
      | None => Some number
      | Some _ => generate_account_number db draws'
      end
  end.

(** [Account.generate_pin] *)
Definition generate_pin (pin_draw : Z) : string := format_0d 4 pin_draw.

(** [Account.__init__].  The class attribute [all_accounts], to which the
    new object is appended, is read nowhere in banking.py and is left
    out. *)
Definition new_Account (db : database) (draws : list Z) (pin_draw : Z)
  : option (res Account) :=
  match generate_account_number db draws with
  | None => None
  | Some acct =>
      Some (c ← generate_checksum acct;
            Ok {| account_number := acct;
                  checksum := c;
                  card_number := generate_card_number acct c;
                  acc_pin := generate_pin pin_draw;
                  acc_balance := 0 |})
  end.

(** [create_card]: the new row goes to the end of the table. *)
Definition create_card (db : database) (draws : list Z) (pin_draw : Z)
  : option (res (Account * database)) :=
  match new_Account db draws pin_draw with
  | None => None
  | Some (Raise e) => Some (Raise e)
  | Some (Ok new_account) =>
      Some (Ok (new_account,
                db ++ [ {| id := account_number new_account;
                           number := card_number new_account;
                           pin := acc_pin new_account;
                           balance := acc_balance new_account |} ]))
  end.

(** [login]: the card number of the first row matching both fields. *)
Definition login (db : database) (card_number pin_ : string) : option string :=
  match fetchone (filter (fun r => number r = card_number /\ pin r = pin_) db) with
  | None => None
  | Some result => Some (number result)
  end.

(** ** Transfers *)

(** What [do_transfer] prints before it returns. *)
Inductive transfer_msg : Type :=
| ProbablyMistake   (* the destination fails the Luhn check *)
| SameAccount       (* source and destination are the same number *)
| NoSuchCard        (* the destination is not in the table *)
| NotEnoughMoney    (* amount > balance of the source *)
| Success.

(** [do_transfer], with the two console lines as arguments: [to_card_num]
    already stripped, [amount] the value of [int(...)].  Each
    [update_balance] commits on its own, so the table is returned with
    the outcome also when an exception escapes. *)
Definition do_transfer (db : database) (from_card_num to_card_num : string)
    (amount : Z) : res transfer_msg * database :=
  match passes_luhn to_card_num with
  | Raise e => (Raise e, db)
  | Ok false => (Ok ProbablyMistake, db)
  | Ok true =>
      if decide (from_card_num = to_card_num) then (Ok SameAccount, db)
      else
        let from_balance := get_balance db from_card_num in
        let to_balance := get_balance db to_card_num in
        match to_balance with
        | None => (Ok NoSuchCard, db)
        | Some _ =>
            match from_balance with
            | None => (Raise TypeError, db)   (* amount > None *)
            | Some from_balance =>
                if amount >? from_balance then (Ok NotEnoughMoney, db)
                else
                  match update_balance db from_card_num (- amount) with
                  | Raise e => (Raise e, db)
                  | Ok db1 =>
                      match update_balance db1 to_card_num amount with
                      | Raise e => (Raise e, db1)
                      | Ok db2 => (Ok Success, db2)
                      end
                  end
            end
        end
  end.

(** ** The main loop

    The globals [logged_in] and [active_card_number] are assigned together
    in every branch ([logged_in] is true exactly when a card number is
    held), so a session keeps the card number only. *)

Record session : Type := {
  conn : database;
  active_card_number : option string
}.

(** What the console and the random generator supply during one turn of
    the loop; a branch reads the fields it asks for. *)
Record console : Type := {
  numbers : list Z;      (* random.randint(0, 999999999), in order *)
  pin_draw : Z;          (* random.randint(0, 9999) *)
  typed_card : string;   (* a card number line, stripped *)
  typed_pin : string;    (* the PIN line, stripped *)
  typed_amount : Z       (* int(...) of the amount line *)
}.

Inductive status : Type :=
| Running (s : session)
| Exited (db : database)
| Crashed (e : exn) (db : database)   (* an exception reached the top level *)
| StillDrawing (db : database).       (* the listed draws are used up *)

(** One turn of [while True:] for the menu line [action]. *)
Definition main_step (s : session) (action : Z) (io : console) : status :=
  match active_card_number s with
  | Some active =>
      if action =? 0 then Exited (conn s)
      else if action =? 1 then Running s
      else if action =? 2 then
        match update_balance (conn s) active (typed_amount io) with
        | Raise e => Crashed e (conn s)
        | Ok db => Running {| conn := db; active_card_number := Some active |}
        end
      else if action =? 3 then
        match do_transfer (conn s) active (typed_card io) (typed_amount io) with
        | (Raise e, db) => Crashed e db
        | (Ok _, db) => Running {| conn := db; active_card_number := Some active |}
        end
      else if action =? 4 then
        Running {| conn := close_account (conn s) active;
                   active_card_number := None |}
      else if action =? 5 then
        Running {| conn := conn s; active_card_number := None |}
      else Running s
  | None =>
      if action =? 0 then Exited (conn s)
      else if action =? 1 then
        match create_card (conn s) (numbers io) (pin_draw io) with
        | None => StillDrawing (conn s)
        | Some (Raise e) => Crashed e (conn s)
        | Some (Ok (_, db)) => Running {| conn := db; active_card_number := None |}
        end
      else if action =? 2 then
        Running {| conn := conn s;
                   active_card_number := login (conn s) (typed_card io) (typed_pin io) |}
      else Running s
  end.

(** The table a turn leaves in the file. *)
Definition db_of (st : status) : database :=
  match st with
  | Running s => conn s
  | Exited db | Crashed _ db | StillDrawing db => db
  end.

(** A run of the program starts logged out on the table in the file. *)
Definition start (db : database) : session :=
  {| conn := db; active_card_number := None |}.

(** The session after a turn; after an exit or a crash the program is
    started again on the same file. *)
Definition next_session (st : status) : option session :=
  match st with
  | Running s => Some s
  | Exited db | Crashed _ db => Some (start db)
  | StillDrawing _ => None
  end.

(** [random.randint(a, b)] returns a value between its bounds. *)
Definition randint_ok (io : console) : Prop :=
  Forall (fun d => 0 <= d <= 999999999) (numbers io) /\ 0 <= pin_draw io <= 9999.

(** The sessions the program can be in, from a fresh [card.s3db]. *)
Inductive reachable : session -> Prop :=
| reachable_start : reachable (start [])
| reachable_step s action io s' :
    reachable s ->
    randint_ok io ->
    next_session (main_step s action io) = Some s' ->
    reachable s'.

(** ** [account.py]: the earlier in-memory [Account]

    The account number is an integer, uniqueness is checked against the
    registry [all_accounts] of the class, and the card number ends in a
    constant 0. *)
Module AccountPy.

Record Account : Type := {
  account_number : Z;
  card_number : Z;
  pin : Z;
  balance : Z
}.

(** [generate_account_number]: redraw while the draw is the account
    number of a registered account; [None] only when the listed draws
    are used up. *)
Fixpoint generate_account_number (all_accounts : list Account) (draws : list Z)
  : option Z :=
  match draws with
  | [] => None
  | number :: draws' =>
      if decide (number ∈ map account_number all_accounts)
      then generate_account_number all_accounts draws'
      else Some number
  end.

(** [generate_card_number]: [int(f'400000{self.account_number}0')] *)
Definition generate_card_number (account_number : Z) : res Z :=
  int_of_str ("400000" +:+ str account_number +:+ "0").

(** [Account.__init__]: the new account and the registry with it
    appended. *)
Definition new_Account (all_accounts : list Account) (draws : list Z) (pin_draw : Z)
  : option (res (Account * list Account)) :=
  match generate_account_number all_accounts draws with
  | None => None
  | Some n =>
      Some (c ← generate_card_number n;
            let a := {| account_number := n; card_number := c;
                        pin := pin_draw; balance := 0 |} in
            Ok (a, all_accounts ++ [a]))
  end.

End AccountPy.

(** ** The design document's formulas *)

Definition is_digit (c : ascii) : bool :=
  (48 <=? Z.of_N (N_of_ascii c)) && (Z.of_N (N_of_ascii c) <=? 57).

Definition digit_string (s : string) : bool :=
  forallb is_digit (String.list_ascii_of_string s).

Definition digit_value (c : ascii) : Z := Z.of_N (N_of_ascii c) - 48.

Definition digit_values (s : string) : list Z :=
  map digit_value (String.list_ascii_of_string s).

(** Double at an even index; subtract 9 from a value over 9. *)
Definition luhn_reduce (i : nat) (d : Z) : Z :=
  let v := if Nat.even i then 2 * d else d in
  if v >? 9 then v - 9 else v.

Definition spec_control (ds : list Z) : Z := foldr Z.add 0 (imap luhn_reduce ds).

(** checksumDigit = (10 - (control mod 10)) mod 10 over bankPrefix + accountNumber *)
Definition spec_checksum_digit (accountNumber : string) : Z :=
  (10 - spec_control (digit_values ("400000" +:+ accountNumber)) mod 10) mod 10.

(** payload = first 15 digits, checkDigit = last digit;
    accept iff (control + checkDigit) mod 10 == 0 *)
Definition spec_luhn_validate (card : string) : bool :=
  let ds := digit_values card in
  let payload := take 15 ds in
  let checkDigit := default 0 (ds !! 15%nat) in
  (spec_control payload + checkDigit) mod 10 =? 0.

(** ** The loop bodies as functions of index and value *)

(** What the first loop leaves at index [i] of a list that held [num]. *)
Definition double_even (i : nat) (num : Z) : Z :=
  if Z.of_nat i mod 2 =? 0 then num * 2 else num.

Definition over_nine (v : Z) : Z := if 9 <? v then v - 9 else v.

(** ** Predicates on tables and sessions *)

(** A stored card number: sixteen digits that pass the Luhn check. *)
Definition card_ok (n : string) : Prop :=
  passes_luhn n = Ok true /\ digit_string n = true /\ String.length n = 16%nat.

(** Every row holds such a number. *)
Definition stored_ok (db : database) : Prop :=
  Forall card_ok (map number db).

(** ... and the card that is logged in is a stored one. *)
Definition session_ok (s : session) : Prop :=
  stored_ok (conn s)
  /\ forall c, active_card_number s = Some c -> c ∈ map number (conn s).

(** No balance is negative. *)
Definition nonnegative (db : database) : Prop :=
  Forall (fun r => 0 <= balance r) db.

(** The 'Add income' branch of the main loop. *)
Definition deposit (db : database) (cardNumber : string) (amount : Z) : status :=
  main_step {| conn := db; active_card_number := Some cardNumber |} 2
    {| numbers := []; pin_draw := 0; typed_card := ""; typed_pin := "";
       typed_amount := amount |}.

(** ** The whole program *)


(** [while True:] over the turns taken at the console, each a menu line
    with what the console and the random generator supply in that turn.
    The loop stops at [break] (action 0) and at an escaping exception;
    [Running] is the loop waiting for its next line. *)
Fixpoint main_loop (s : session) (turns : list (Z * console)) : status :=
  match turns with
  | [] => Running s
  | (action, io) :: turns' =>
      match main_step s action io with
      | Running s' => main_loop s' turns'
      | st => st
      end
  end.


(** ** Measures on digit lists and tables *)

(** The sum [passes_luhn] forms from a list of digits: control over all
    but the last, plus the last. *)
Definition luhn_sum (ds : list Z) : Z :=
  spec_control (take (length ds - 1) ds) + default 0 (last ds).

(** The weight of the digit at index [i] of [n] digits: the last digit
    counts as it is, the others doubled and reduced at even indices. *)
Definition luhn_weight (n i : nat) (d : Z) : Z :=
  if decide (S i = n) then d else luhn_reduce i d.

(** The columns of a row that identify the card. *)
Definition card_fields (r : row) : string * string * string :=
  (id r, number r, pin r).


(** The money in the table. *)
Definition total_balance (db : database) : Z :=
  foldr (fun r acc => balance r + acc) 0 db.

(** ** Tables and sessions used as examples *)

(** A table with one card, as a first [create_card] leaves it. *)
Definition one_card_db : database :=
  [ {| id := "003424062"; number := "4000000034240624"; pin := "1234"; balance := 0 |} ].

Definition create_io : console :=
  {| numbers := [3424062]; pin_draw := 1234;
     typed_card := ""; typed_pin := ""; typed_amount := 0 |}.

(** Two cards with money on them. *)
Definition two_card_db : database :=
  [ {| id := "003424062"; number := "4000000034240624"; pin := "1234"; balance := 10 |};
    {| id := "000000001"; number := "4000000000000010"; pin := "0007"; balance := 3 |} ].

(** The session in which the first card is logged in and has entered an
    income of -5. *)
Definition negative_db : database :=
  [ {| id := "003424062"; number := "4000000034240624"; pin := "1234"; balance := -5 |} ].

Definition negative_session : session :=
  {| conn := negative_db; active_card_number := Some "4000000034240624" |}.

(** A destination holding the largest 64-bit balance. *)
Definition full_card_db : database :=
  [ {| id := "003424062"; number := "4000000034240624"; pin := "1234"; balance := 10 |};
    {| id := "000000001"; number := "4000000000000010"; pin := "0007";
       balance := 9223372036854775807 |} ].




(** Console turns: logging in to the first card, and a transfer to a
    card number with a letter in it. *)
Definition login_io : console :=
  {| numbers := []; pin_draw := 0; typed_card := "4000000034240624";
     typed_pin := "1234"; typed_amount := 0 |}.

Definition bad_transfer_io : console :=
  {| numbers := []; pin_draw := 0; typed_card := "40000000342406x4";
     typed_pin := ""; typed_amount := 1 |}.

(** * Properties *)

(** ** The two loops as maps *)

Section IndexLoop.
Variable f : nat -> Z -> Z.
Variable step : list Z -> nat -> list Z.
Hypothesis step_spec : forall l i,
  step l i = match l !! i with Some v => <[i := f i v]> l | None => l end.

Lemma index_loop_prefix (l : list Z) (n : nat) :
  (n <= length l)%nat ->
  foldl step l (seq 0 n) = imap f (take n l) ++ drop n l.
Proof.
  induction n as [|n IH]; intros Hn.
  - by rewrite take_0, drop_0.
  - rewrite seq_S, foldl_app, IH by lia. simpl.
    destruct (lookup_lt_is_Some_2 l n) as [v Hv]; [lia|].
    assert (Hlen : length (imap f (take n l)) = n)
      by (rewrite length_imap, length_take; lia).
    rewrite step_spec.
    rewrite lookup_app_r by lia.
    rewrite Hlen, Nat.sub_diag, lookup_drop, Nat.add_0_r, Hv.
    rewrite insert_app_r_alt by lia.
    rewrite Hlen, Nat.sub_diag.
    rewrite (take_S_r l n v Hv), imap_app, length_take_le by lia.
    rewrite (drop_S l v n Hv). simpl.
    rewrite Nat.add_0_r, <- app_assoc. done.
Qed.

Lemma index_loop (l : list Z) :
  foldl step l (seq 0 (length l)) = imap f l.
Proof.
  rewrite index_loop_prefix by lia.
  rewrite take_ge, drop_ge by lia. apply app_nil_r.
Qed.
End IndexLoop.

Lemma double_even_indices_imap (l : list Z) :
  double_even_indices l = imap double_even l.
Proof.
  apply index_loop. intros k i. unfold double_step, double_even.
  destruct (k !! i) as [v|] eqn:Hv; [|done].
  destruct (Z.of_nat i mod 2 =? 0); [done|].
  by rewrite list_insert_id.
Qed.

Lemma subtract_nine_map (l : list Z) :
  subtract_nine l = map over_nine l.
Proof.
  unfold subtract_nine.
  rewrite (index_loop (fun _ => over_nine)).
  - apply imap_const.
  - intros k i. unfold subtract_step, over_nine.
    destruct (k !! i) as [v|] eqn:Hv; [|done].
    destruct (9 <? v); [done|].
    by rewrite list_insert_id.
Qed.

Lemma py_sum_foldr (l : list Z) : py_sum l = foldr Z.add 0 l.
Proof.
  unfold py_sum.
  assert (H : forall a, foldl Z.add a l = a + foldr Z.add 0 l).
  { induction l as [|x l IH]; intros a; simpl; [lia|]. rewrite IH. lia. }
  rewrite H. lia.
Qed.

Lemma even_mod2 (i : nat) : (Z.of_nat i mod 2 =? 0) = Nat.even i.
Proof.
  destruct (Nat.even i) eqn:He.
  - apply Nat.even_spec in He as [k ->]. apply Z.eqb_eq.
    rewrite Nat2Z.inj_mul, Z.mul_comm. apply Z_mod_mult.
  - apply Z.eqb_neq. intros Hm.
    assert (Ho : Nat.odd i = true) by (by rewrite <- Nat.negb_even, He).
    apply Nat.odd_spec in Ho as [k ->].
    rewrite Nat2Z.inj_add, Nat2Z.inj_mul in Hm.
    change (Z.of_nat 2) with 2 in Hm. change (Z.of_nat 1) with 1 in Hm.
    rewrite Z.add_comm, Z.mul_comm, Z_mod_plus_full in Hm. discriminate.
Qed.

(** The control sum the code computes is the one of the design document. *)
Lemma control_spec (l : list Z) :
  py_sum (subtract_nine (double_even_indices l)) = spec_control l.
Proof.
  rewrite py_sum_foldr, subtract_nine_map, double_even_indices_imap.
  unfold spec_control. f_equal.
  apply list_eq. intros i.
  rewrite list_lookup_fmap, !list_lookup_imap.
  destruct (l !! i) as [d|]; [|done]. simpl. f_equal.
  unfold over_nine, double_even, luhn_reduce.
  rewrite even_mod2, Z.gtb_ltb.
  destruct (Nat.even i); [|done].
  by rewrite (Z.mul_comm d 2).
Qed.

(** ** Strings of digits *)

Lemma append_cons (c : ascii) (a b : string) :
  String c a +:+ b = String c (a +:+ b).
Proof. reflexivity. Qed.

Lemma list_ascii_app (a b : string) :
  String.list_ascii_of_string (a +:+ b)
  = String.list_ascii_of_string a ++ String.list_ascii_of_string b.
Proof.
  induction a as [|c a IH]; [done|].
  rewrite append_cons. simpl. by rewrite IH.
Qed.

Lemma string_length_list (s : string) :
  String.length s = length (String.list_ascii_of_string s).
Proof. induction s as [|c s IH]; simpl; [done|]. by rewrite IH. Qed.

Lemma list_ascii_of_list (l : list ascii) :
  String.list_ascii_of_string (String.string_of_list_ascii l) = l.
Proof. induction l as [|c l IH]; simpl; [done|]. by rewrite IH. Qed.

Lemma string_length_app (a b : string) :
  String.length (a +:+ b) = (String.length a + String.length b)%nat.
Proof. by rewrite !string_length_list, list_ascii_app, length_app. Qed.

Lemma digit_string_app (a b : string) :
  digit_string (a +:+ b) = digit_string a && digit_string b.
Proof. unfold digit_string. by rewrite list_ascii_app, forallb_app. Qed.

Lemma digit_values_app (a b : string) :
  digit_values (a +:+ b) = digit_values a ++ digit_values b.
Proof. unfold digit_values. by rewrite list_ascii_app, map_app. Qed.

Lemma length_digit_values (s : string) :
  length (digit_values s) = String.length s.
Proof. unfold digit_values. by rewrite length_map, string_length_list. Qed.

Lemma int_of_char_digit (c : ascii) :
  is_digit c = true -> int_of_char c = Ok (digit_value c).
Proof. unfold is_digit, int_of_char, digit_value. by intros ->. Qed.

Lemma int_of_char_other (c : ascii) :
  is_digit c = false -> int_of_char c = Raise ValueError.
Proof. unfold is_digit, int_of_char. by intros ->. Qed.

Lemma ints_of_digits (cs : list ascii) :
  forallb is_digit cs = true -> ints_of_chars cs = Ok (map digit_value cs).
Proof.
  induction cs as [|c cs IH]; simpl; [done|].
  intros [Hc Hcs]%andb_true_iff.
  by rewrite (int_of_char_digit c Hc), (IH Hcs).
Qed.

(** On a string of digits the comprehension cannot raise. *)
Lemma int_list_digits (s : string) :
  digit_string s = true -> int_list s = Ok (digit_values s).
Proof. apply ints_of_digits. Qed.

Lemma digit_value_range (c : ascii) :
  is_digit c = true -> 0 <= digit_value c <= 9.
Proof. unfold is_digit, digit_value. intros [?%Z.leb_le ?%Z.leb_le]%andb_true_iff. lia. Qed.

(** A one-digit number is rendered as its digit. *)
Lemma str_digit (c : Z) :
  0 <= c <= 9 ->
  digit_string (str c) = true /\ digit_values (str c) = [c]
  /\ String.length (str c) = 1%nat.
Proof.
  intros Hc.
  assert (Hcases : c = 0 \/ c = 1 \/ c = 2 \/ c = 3 \/ c = 4 \/ c = 5
                   \/ c = 6 \/ c = 7 \/ c = 8 \/ c = 9) by lia.
  repeat (destruct Hcases as [-> | Hcases]; [by vm_compute|]).
  subst c. by vm_compute.
Qed.

(** ** The Luhn check on digits *)

Lemma passes_luhn_snoc (s : string) (ds : list Z) (d : Z) :
  int_list s = Ok (ds ++ [d]) ->
  passes_luhn s = Ok ((spec_control ds + d) mod 10 =? 0).
Proof.
  intros Hs. unfold passes_luhn. rewrite Hs. simpl.
  assert (Hidx : Z.to_nat (Z.of_nat (length (ds ++ [d])) - 1) = length ds)
    by (rewrite length_app; simpl; lia).
  assert (Hpos : (Z.of_nat (length (ds ++ [d])) - 1 <? 0) = false)
    by (apply Z.ltb_ge; rewrite length_app; simpl; lia).
  unfold py_getitem, py_delitem. rewrite Hpos, Hidx.
  rewrite lookup_app_r, Nat.sub_diag by lia. simpl. rewrite Hpos. simpl.
  replace (delete (length ds) (ds ++ [d])) with ds.
  - by rewrite control_spec.
  - clear. induction ds as [|x ds IH]; simpl; [done|]. by rewrite <- IH.
Qed.

Lemma checksum_closes (control : Z) :
  let c := (10 - control mod 10) mod 10 in
  0 <= c <= 9 /\ (control + c) mod 10 = 0.
Proof.
  simpl. split.
  - pose proof (Z.mod_pos_bound (10 - control mod 10) 10). lia.
  - rewrite Zplus_mod_idemp_r.
    replace (control + (10 - control mod 10)) with (control - control mod 10 + 1 * 10) by lia.
    rewrite Z_mod_plus_full, Zminus_mod_idemp_r, Z.sub_diag. done.
Qed.

Lemma generate_checksum_spec (account_number : string) :
  digit_string account_number = true ->
  generate_checksum account_number = Ok (spec_checksum_digit account_number).
Proof.
  intros Hd. unfold generate_checksum.
  rewrite int_list_digits by (by rewrite digit_string_app, Hd).
  simpl. by rewrite control_spec.
Qed.

Lemma generated_card_passes (account_number : string) :
  digit_string account_number = true ->
  let card := generate_card_number account_number (spec_checksum_digit account_number) in
  passes_luhn card = Ok true
  /\ digit_string card = true
  /\ String.length card = (7 + String.length account_number)%nat.
Proof.
  intros Hd card. subst card. unfold generate_card_number.
  set (c := spec_checksum_digit account_number).
  destruct (checksum_closes (spec_control (digit_values ("400000" +:+ account_number))))
    as [Hrange Hzero]. fold (spec_checksum_digit account_number) in Hrange, Hzero.
  fold c in Hrange, Hzero.
  destruct (str_digit c Hrange) as (Hsd & Hsv & Hsl).
  split; [|split].
  - rewrite (passes_luhn_snoc _ (digit_values ("400000" +:+ account_number)) c).
    + by rewrite Hzero.
    + rewrite int_list_digits.
      * by rewrite !digit_values_app, Hsv, app_assoc.
      * by rewrite !digit_string_app, Hd, Hsd.
  - by rewrite !digit_string_app, Hd, Hsd.
  - rewrite !string_length_app, Hsl. simpl. lia.
Qed.

(** ** Zero-padded decimal rendering *)

Lemma digit_char_is_digit (k : N) : (k < 10)%N -> is_digit (digit_char k) = true.
Proof.
  intros Hk.
  assert (Hcases : (k = 0 \/ k = 1 \/ k = 2 \/ k = 3 \/ k = 4 \/ k = 5
                    \/ k = 6 \/ k = 7 \/ k = 8 \/ k = 9)%N) by lia.
  repeat (destruct Hcases as [-> | Hcases]; [by vm_compute|]).
  subst k. by vm_compute.
Qed.

Lemma decimal_digits_are_digits (fuel : nat) (n : N) :
  forallb is_digit (decimal_digits fuel n) = true.
Proof.
  revert n. induction fuel as [|f IH]; intros n; simpl; [done|].
  rewrite forallb_app. simpl.
  rewrite digit_char_is_digit by (apply N.mod_lt; lia).
  destruct (n <? 10)%N; simpl; [done|]. by rewrite IH.
Qed.

Lemma decimal_digits_length (fuel : nat) (n : N) (k : nat) :
  (1 <= k)%nat -> (n < 10 ^ N.of_nat k)%N ->
  (length (decimal_digits fuel n) <= k)%nat.
Proof.
  revert n k. induction fuel as [|f IH]; intros n k Hk Hn; simpl; [lia|].
  rewrite length_app. simpl.
  destruct (n <? 10)%N eqn:Hlt; simpl; [lia|].
  apply N.ltb_ge in Hlt.
  destruct k as [|[|k]]; [lia| |].
  - change (10 ^ N.of_nat 1)%N with 10%N in Hn. lia.
  - assert (length (decimal_digits f (n / 10)) <= S k)%nat; [|lia].
    apply IH; [lia|].
    apply N.Div0.div_lt_upper_bound.
    replace (N.of_nat (S (S k))) with (N.succ (N.of_nat (S k))) in Hn by lia.
    by rewrite N.pow_succ_r' in Hn.
Qed.

Lemma zfill_chars (w : nat) (s : string) :
  String.list_ascii_of_string (zfill w s)
  = replicate (w - String.length s) "0"%char ++ String.list_ascii_of_string s.
Proof. unfold zfill. by rewrite list_ascii_app, list_ascii_of_list. Qed.

Lemma forallb_replicate_zero (k : nat) :
  forallb is_digit (replicate k "0"%char) = true.
Proof. induction k as [|k IH]; simpl; [done|]. by rewrite IH. Qed.

(** ['{:0wd}'.format(z)] of a number of at most [w] digits is [w] digits. *)
Lemma format_0d_digits (w : nat) (z : Z) :
  (1 <= w)%nat -> 0 <= z < 10 ^ Z.of_nat w ->
  digit_string (format_0d w z) = true /\ String.length (format_0d w z) = w.
Proof.
  intros Hw [Hz0 Hzw]. unfold format_0d.
  destruct (z <? 0) eqn:Hneg; [apply Z.ltb_lt in Hneg; lia|].
  set (s := str_N (Z.to_N z)).
  assert (Hs : String.list_ascii_of_string s
               = decimal_digits (S (N.to_nat (N.log2 (Z.to_N z)))) (Z.to_N z))
    by apply list_ascii_of_list.
  assert (Hlen : (String.length s <= w)%nat).
  { rewrite string_length_list, Hs. apply decimal_digits_length; [done|].
    apply N2Z.inj_lt. rewrite Z2N.id, N2Z.inj_pow, nat_N_Z by done.
    exact Hzw. }
  split.
  - unfold digit_string. rewrite zfill_chars, forallb_app, forallb_replicate_zero.
    rewrite Hs. apply decimal_digits_are_digits.
  - rewrite string_length_list, zfill_chars, length_app, length_replicate.
    rewrite <- string_length_list. lia.
Qed.

Lemma account_number_format (d : Z) :
  0 <= d <= 999999999 ->
  digit_string (format_0d 9 d) = true /\ String.length (format_0d 9 d) = 9%nat.
Proof.
  intros Hd. apply format_0d_digits; [lia|].
  change (10 ^ Z.of_nat 9) with 1000000000. lia.
Qed.

(** The rendering is read back by [int]: the fuel of [str_N] is enough. *)
Lemma int_of_digits_snoc (ds : list Z) (d : Z) :
  int_of_digits (ds ++ [d]) = 10 * int_of_digits ds + d.
Proof. unfold int_of_digits. by rewrite foldl_app. Qed.

Lemma digit_value_digit_char (k : N) :
  (k < 10)%N -> digit_value (digit_char k) = Z.of_N k.
Proof.
  intros Hk.
  assert (Hcases : (k = 0 \/ k = 1 \/ k = 2 \/ k = 3 \/ k = 4 \/ k = 5
                    \/ k = 6 \/ k = 7 \/ k = 8 \/ k = 9)%N) by lia.
  repeat (destruct Hcases as [-> | Hcases]; [by vm_compute|]).
  subst k. by vm_compute.
Qed.

Lemma decimal_digits_value (fuel : nat) (n : N) :
  (n < 10 ^ N.of_nat fuel)%N ->
  int_of_digits (map digit_value (decimal_digits fuel n)) = Z.of_N n.
Proof.
  revert n. induction fuel as [|f IH]; intros n Hn.
  - change (10 ^ N.of_nat 0)%N with 1%N in Hn. assert (n = 0%N) as -> by lia. done.
  - cbn [decimal_digits]. rewrite map_app. cbn [map]. rewrite int_of_digits_snoc.
    rewrite digit_value_digit_char by (apply N.mod_lt; lia).
    destruct (n <? 10)%N eqn:Hlt.
    + apply N.ltb_lt in Hlt. rewrite N.mod_small by done.
      unfold int_of_digits. simpl. lia.
    + apply N.ltb_ge in Hlt. rewrite IH.
      * pose proof (N.div_mod n 10). lia.
      * apply N.Div0.div_lt_upper_bound.
        replace (N.of_nat (S f)) with (N.succ (N.of_nat f)) in Hn by lia.
        by rewrite N.pow_succ_r' in Hn.
Qed.

Lemma str_N_fuel (n : N) : (n < 10 ^ N.of_nat (S (N.to_nat (N.log2 n))))%N.
Proof.
  replace (N.of_nat (S (N.to_nat (N.log2 n)))) with (N.succ (N.log2 n)) by lia.
  apply N.lt_le_trans with (2 ^ N.succ (N.log2 n))%N.
  - destruct n as [|p]; [done|]. apply N.log2_spec. lia.
  - apply N.pow_le_mono_l. lia.
Qed.

Lemma int_of_str_N (n : N) : int_of_str (str_N n) = Ok (Z.of_N n).
Proof.
  unfold int_of_str, str_N, int_list. rewrite list_ascii_of_list.
  rewrite ints_of_digits by apply decimal_digits_are_digits. simpl.
  rewrite <- (decimal_digits_value _ n (str_N_fuel n)).
  simpl. by destruct (_ ++ _) eqn:Habs; [by apply app_eq_nil in Habs as [_ ?]|].
Qed.

(** account.py. The earlier generator writes a constant 0 where
    banking.py computes the check digit, and does not pad the account
    number: its card numbers need neither have 16 digits nor pass the
    check of banking.py. *)
Lemma account_py_card_numbers :
  AccountPy.generate_card_number 3424062 = Ok 40000034240620
  /\ AccountPy.generate_card_number 999999999 = Ok 4000009999999990
  /\ passes_luhn (str 4000009999999990) = Ok false.
Proof. repeat split; by vm_compute. Qed.

(** ** Reading and writing the table *)

Lemma select_update_same (db : database) (c : string) (b : Z) :
  select_by_number (update_rows db c b) c
  = map (fun r => with_balance r b) (select_by_number db c).
Proof.
  unfold select_by_number, update_rows.
  induction db as [|r db IH]; [done|].
  rewrite map_cons, !filter_cons.
  destruct (decide (number r = c)) as [Hr|Hr]; simpl.
  - rewrite decide_True by done. by rewrite IH.
  - rewrite decide_False by done. exact IH.
Qed.

Lemma select_update_other (db : database) (c c' : string) (b : Z) :
  c' <> c ->
  select_by_number (update_rows db c b) c' = select_by_number db c'.
Proof.
  intros Hne. unfold select_by_number, update_rows.
  induction db as [|r db IH]; [done|].
  rewrite map_cons, !filter_cons.
  destruct (decide (number r = c)) as [Hr|Hr]; simpl.
  - rewrite !decide_False by congruence. exact IH.
  - destruct (decide (number r = c')); by rewrite IH.
Qed.

Lemma numbers_update_rows (db : database) (c : string) (b : Z) :
  map number (update_rows db c b) = map number db.
Proof.
  unfold update_rows. rewrite map_map. apply map_ext.
  intros r. by destruct (decide (number r = c)).
Qed.

Lemma get_balance_update_same (db : database) (c : string) (b : Z) :
  is_Some (get_balance db c) -> get_balance (update_rows db c b) c = Some b.
Proof.
  unfold get_balance. rewrite select_update_same.
  destruct (select_by_number db c) as [|r rs]; simpl; [|done].
  by intros [? ?].
Qed.

Lemma get_balance_update_other (db : database) (c c' : string) (b : Z) :
  c' <> c -> get_balance (update_rows db c b) c' = get_balance db c'.
Proof. intros Hne. unfold get_balance. by rewrite select_update_other. Qed.

Lemma update_balance_absent (db : database) (c : string) (amount : Z) :
  get_balance db c = None -> update_balance db c amount = Raise TypeError.
Proof.
  unfold get_balance, update_balance.
  by destruct (fetchone (select_by_number db c)).
Qed.

Lemma update_balance_present (db : database) (c : string) (amount b : Z) :
  get_balance db c = Some b ->
  update_balance db c amount
  = if sqlite_integer (b + amount) then Ok (update_rows db c (b + amount))
    else Raise OverflowError.
Proof.
  unfold get_balance, update_balance.
  destruct (fetchone (select_by_number db c)); [|done].
  by intros [= <-].
Qed.

Lemma update_balance_Ok (db db' : database) (c : string) (amount : Z) :
  update_balance db c amount = Ok db' ->
  exists b, get_balance db c = Some b
            /\ sqlite_integer (b + amount) = true
            /\ db' = update_rows db c (b + amount).
Proof.
  intros Hu. destruct (get_balance db c) as [b|] eqn:Hb.
  - rewrite (update_balance_present _ _ _ _ Hb) in Hu.
    destruct (sqlite_integer (b + amount)) eqn:Hs; [|done].
    exists b. by injection Hu as <-.
  - by rewrite (update_balance_absent _ _ _ Hb) in Hu.
Qed.

Lemma update_balance_Raise (db : database) (c : string) (amount : Z) (e : exn) :
  update_balance db c amount = Raise e ->
  (get_balance db c = None /\ e = TypeError)
  \/ (is_Some (get_balance db c) /\ e = OverflowError).
Proof.
  intros Hu. destruct (get_balance db c) as [b|] eqn:Hb.
  - rewrite (update_balance_present _ _ _ _ Hb) in Hu.
    destruct (sqlite_integer (b + amount)); [done|].
    right. split; [by eexists|congruence].
  - rewrite (update_balance_absent _ _ _ Hb) in Hu. left. split; congruence.
Qed.

(** What a transfer does once every check has passed. *)
Lemma do_transfer_checked (db : database) (from to : string) (amount fb tb : Z) :
  passes_luhn to = Ok true -> from <> to ->
  get_balance db from = Some fb -> get_balance db to = Some tb ->
  amount <= fb ->
  do_transfer db from to amount
  = if sqlite_integer (fb - amount)
    then let db1 := update_rows db from (fb - amount) in
         if sqlite_integer (tb + amount)
         then (Ok Success, update_rows db1 to (tb + amount))
         else (Raise OverflowError, db1)
    else (Raise OverflowError, db).
Proof.
  intros Hl Hne Hf Ht Ha. unfold do_transfer.
  rewrite Hl, decide_False, Ht, Hf by done.
  replace (amount >? fb) with false by (symmetry; rewrite Z.gtb_ltb; apply Z.ltb_ge; lia).
  rewrite (update_balance_present _ _ _ _ Hf).
  replace (fb + - amount) with (fb - amount) by lia.
  destruct (sqlite_integer (fb - amount)); [|done]. simpl.
  assert (Ht1 : get_balance (update_rows db from (fb - amount)) to = Some tb)
    by (by rewrite get_balance_update_other).
  rewrite (update_balance_present _ _ _ _ Ht1).
  by destruct (sqlite_integer (tb + amount)).
Qed.

(** A transfer that reports success went through every check. *)
Lemma do_transfer_Success (db db' : database) (from to : string) (amount : Z) :
  do_transfer db from to amount = (Ok Success, db') ->
  exists fb tb,
    passes_luhn to = Ok true /\ from <> to
    /\ get_balance db from = Some fb /\ get_balance db to = Some tb
    /\ amount <= fb
    /\ db' = update_rows (update_rows db from (fb - amount)) to (tb + amount).
Proof.
  intros Hd.
  assert (Hl : passes_luhn to = Ok true).
  { unfold do_transfer in Hd. destruct (passes_luhn to) as [[]|]; by try done. }
  assert (Hne : from <> to).
  { unfold do_transfer in Hd. rewrite Hl in Hd. by destruct (decide (from = to)). }
  unfold do_transfer in Hd. rewrite Hl, decide_False in Hd by done.
  destruct (get_balance db to) as [tb|] eqn:Ht; [|done].
  destruct (get_balance db from) as [fb|] eqn:Hf; [|done].
  destruct (amount >? fb) eqn:Hgt; [done|].
  assert (Ha : amount <= fb) by (rewrite Z.gtb_ltb in Hgt; apply Z.ltb_ge in Hgt; lia).
  fold (do_transfer db from to amount) in Hd.
  exists fb, tb. repeat split; try done.
  destruct (update_balance db from (- amount)) as [db1|] eqn:H1; [|done].
  destruct (update_balance db1 to amount) as [db2|] eqn:H2; [|done].
  injection Hd as <-.
  apply update_balance_Ok in H1 as (b1 & Hb1 & _ & ->).
  apply update_balance_Ok in H2 as (b2 & Hb2 & _ & ->).
  rewrite get_balance_update_other in Hb2 by done.
  rewrite Hf in Hb1. rewrite Ht in Hb2.
  injection Hb1 as <-. injection Hb2 as <-.
  by replace (fb + - amount) with (fb - amount) by lia.
Qed.

(** ** What every reachable table satisfies *)

Lemma get_balance_is_Some (db : database) (c : string) :
  is_Some (get_balance db c) <-> c ∈ map number db.
Proof.
  unfold get_balance, select_by_number.
  induction db as [|r db IH]; simpl.
  - split; [by intros [? ?]|by intros ?%elem_of_nil].
  - rewrite filter_cons, elem_of_cons.
    destruct (decide (number r = c)) as [Hr|Hr]; simpl.
    + split; [by left|by eexists].
    + rewrite IH. split; [by right|]. intros [?|?]; [congruence|done].
Qed.

Lemma get_balance_None (db : database) (c : string) :
  get_balance db c = None <-> c ∉ map number db.
Proof. rewrite <- get_balance_is_Some, eq_None_not_Some. done. Qed.

Lemma update_balance_numbers (db db' : database) (c : string) (amount : Z) :
  update_balance db c amount = Ok db' -> map number db' = map number db.
Proof. intros (b & _ & _ & ->)%update_balance_Ok. apply numbers_update_rows. Qed.

Lemma do_transfer_numbers (db : database) (from to : string) (amount : Z) :
  map number (do_transfer db from to amount).2 = map number db.
Proof.
  unfold do_transfer.
  destruct (passes_luhn to) as [[]|]; [|done..].
  destruct (decide (from = to)); [done|].
  destruct (get_balance db to); [|done].
  destruct (get_balance db from) as [fb|]; [|done].
  destruct (amount >? fb); [done|].
  destruct (update_balance db from (- amount)) as [db1|] eqn:H1; [|done].
  apply update_balance_numbers in H1.
  destruct (update_balance db1 to amount) as [db2|] eqn:H2; simpl; [|done].
  apply update_balance_numbers in H2. congruence.
Qed.

Lemma close_account_numbers (db : database) (c n : string) :
  n ∈ map number (close_account db c) -> n ∈ map number db.
Proof.
  unfold close_account. rewrite !list_elem_of_In, !in_map_iff.
  intros (r & Hn & Hr). exists r. split; [done|].
  apply list_elem_of_In. apply list_elem_of_In, list_elem_of_filter in Hr. tauto.
Qed.

Lemma login_number (db : database) (c p n : string) :
  login db c p = Some n -> n ∈ map number db.
Proof.
  unfold login, fetchone.
  destruct (filter _ db) as [|r rs] eqn:Hf; simpl; [done|].
  intros [= <-].
  assert (Hr : r ∈ filter (fun r => number r = c /\ pin r = p) db)
    by (rewrite Hf; apply list_elem_of_here).
  apply list_elem_of_filter in Hr as [_ Hr].
  apply list_elem_of_In, in_map_iff. exists r. split; [done|].
  by apply list_elem_of_In.
Qed.

Lemma generate_account_number_draw (db : database) (draws : list Z) (acct : string) :
  generate_account_number db draws = Some acct ->
  exists d, d ∈ draws /\ acct = format_0d 9 d.
Proof.
  induction draws as [|d draws IH]; simpl; [done|].
  destruct (fetchone (select_by_number db (format_0d 9 d))).
  - intros (d' & Hd' & ->)%IH. exists d'. split; [by right|done].
  - intros [= <-]. exists d. split; [by left|done].
Qed.

(** A created card: nine digits of account number after the prefix, then
    the check digit; the row is appended with balance 0. *)
Lemma create_card_result (db db' : database) (draws : list Z) (pin_draw : Z)
    (a : Account) :
  Forall (fun d => 0 <= d <= 999999999) draws ->
  create_card db draws pin_draw = Some (Ok (a, db')) ->
  exists d, d ∈ draws
    /\ account_number a = format_0d 9 d
    /\ checksum a = spec_checksum_digit (format_0d 9 d)
    /\ card_number a = generate_card_number (format_0d 9 d) (checksum a)
    /\ card_ok (card_number a)
    /\ db' = db ++ [ {| id := account_number a; number := card_number a;
                        pin := generate_pin pin_draw; balance := 0 |} ].
Proof.
  intros Hdraws. unfold create_card, new_Account.
  destruct (generate_account_number db draws) as [acct|] eqn:Hg; [|done].
  apply generate_account_number_draw in Hg as (d & Hd & ->).
  assert (Hrange : 0 <= d <= 999999999)
    by (rewrite Forall_forall in Hdraws; by apply Hdraws).
  destruct (account_number_format d Hrange) as [Hdig Hlen].
  rewrite (generate_checksum_spec _ Hdig). simpl.
  intros [= <- <-]. simpl. exists d.
  destruct (generated_card_passes _ Hdig) as (Hp & Hds & Hl).
  repeat split; try done.
  rewrite Hl, Hlen. done.
Qed.

Lemma create_card_no_raise (db : database) (draws : list Z) (pin_draw : Z) (e : exn) :
  Forall (fun d => 0 <= d <= 999999999) draws ->
  create_card db draws pin_draw <> Some (Raise e).
Proof.
  intros Hdraws. unfold create_card, new_Account.
  destruct (generate_account_number db draws) as [acct|] eqn:Hg; [|done].
  apply generate_account_number_draw in Hg as (d & Hd & ->).
  assert (Hrange : 0 <= d <= 999999999)
    by (rewrite Forall_forall in Hdraws; by apply Hdraws).
  destruct (account_number_format d Hrange) as [Hdig Hlen].
  by rewrite (generate_checksum_spec _ Hdig).
Qed.

Lemma start_ok (db : database) : stored_ok db -> session_ok (start db).
Proof. intros Hdb. split; [done|]. by intros c [=]. Qed.

Lemma main_step_ok (s s' : session) (action : Z) (io : console) :
  session_ok s -> randint_ok io ->
  next_session (main_step s action io) = Some s' ->
  session_ok s'.
Proof.
  intros [Hdb Hact] [Hdraws Hpin]. unfold main_step.
  destruct (active_card_number s) as [active|] eqn:Ha.
  - specialize (Hact active eq_refl).
    destruct (action =? 0); [intros [= <-]; by apply start_ok|].
    destruct (action =? 1); [intros [= <-]; split; [done|]; by intros c; rewrite Ha; intros [= <-]|].
    destruct (action =? 2).
    { destruct (update_balance (conn s) active (typed_amount io)) as [db|] eqn:Hu; simpl.
      - intros [= <-]. apply update_balance_numbers in Hu.
        split; simpl; [unfold stored_ok; by rewrite Hu|].
        intros c [= <-]. by rewrite Hu.
      - intros [= <-]. by apply start_ok. }
    destruct (action =? 3).
    { pose proof (do_transfer_numbers (conn s) active (typed_card io) (typed_amount io)) as Hn.
      destruct (do_transfer (conn s) active (typed_card io) (typed_amount io)) as [[m|e] db];
        simpl in *; intros [= <-].
      - split; simpl; [unfold stored_ok; by rewrite Hn|].
        intros c [= <-]. by rewrite Hn.
      - apply start_ok. unfold stored_ok. by rewrite Hn. }
    destruct (action =? 4).
    { intros [= <-]. apply start_ok. unfold stored_ok in *.
      rewrite Forall_forall in *. intros n Hn. eapply Hdb, close_account_numbers, Hn. }
    destruct (action =? 5); [intros [= <-]; by apply start_ok|].
    intros [= <-]. split; [done|]. intros c. rewrite Ha. by intros [= <-].
  - destruct (action =? 0); [intros [= <-]; by apply start_ok|].
    destruct (action =? 1).
    { destruct (create_card (conn s) (numbers io) (pin_draw io)) as [[[a db]|e]|] eqn:Hc;
        simpl; [|intros [= <-]; by apply start_ok|done].
      intros [= <-]. apply start_ok.
      apply create_card_result in Hc as (d & _ & _ & _ & _ & Hok & ->); [|done].
      unfold stored_ok. rewrite map_app. apply Forall_app. split; [done|].
      simpl. constructor; [exact Hok|constructor]. }
    destruct (action =? 2).
    { intros [= <-]. split; [done|]. simpl. intros c Hc. eapply login_number, Hc. }
    intros [= <-]. split; [done|]. intros c. rewrite Ha. done.
Qed.

Theorem reachable_ok (s : session) : reachable s -> session_ok s.
Proof.
  induction 1 as [|s action io s' _ IH Hio Hstep].
  - apply start_ok. constructor.
  - by eapply main_step_ok.
Qed.

(** ** Card numbers and the Luhn check *)

Lemma one_card_reachable : reachable (start one_card_db).
Proof.
  apply (reachable_step (start []) 1 create_io).
  - apply reachable_start.
  - split; [repeat constructor; lia | simpl; lia].
  - by vm_compute.
Qed.

(** C1. Round trip of generation and validation: for every 9-digit account
    number the generator computes a checksum digit, the composed card
    number ('400000' + account number + checksum digit) has 16 digits and
    passes [passes_luhn]; and the number of every row of every table the
    program can reach passes [passes_luhn]. *)
Theorem generated_card_number_passes_luhn
    (account_number : string) (s : session) (r : row) :
  digit_string account_number = true ->
  String.length account_number = 9%nat ->
  reachable s -> r ∈ conn s ->
  (exists checksum,
     generate_checksum account_number = Ok checksum
     /\ String.length (generate_card_number account_number checksum) = 16%nat
     /\ passes_luhn (generate_card_number account_number checksum) = Ok true)
  /\ passes_luhn (number r) = Ok true.
Proof.
  intros Hd Hlen Hs Hr. split.
  - exists (spec_checksum_digit account_number).
    destruct (generated_card_passes _ Hd) as (Hp & _ & Hl).
    split; [by apply generate_checksum_spec|]. split; [|done].
    rewrite Hl, Hlen. done.
  - destruct (reachable_ok s Hs) as [Hdb _].
    unfold stored_ok in Hdb. rewrite Forall_forall in Hdb.
    apply Hdb. apply list_elem_of_In, in_map, list_elem_of_In, Hr.
Qed.

Lemma generated_card_number_passes_luhn_witness :
  (exists checksum,
     generate_checksum "003424062" = Ok checksum
     /\ String.length (generate_card_number "003424062" checksum) = 16%nat
     /\ passes_luhn (generate_card_number "003424062" checksum) = Ok true)
  /\ passes_luhn "4000000034240624" = Ok true.
Proof.
  apply (generated_card_number_passes_luhn "003424062" (start one_card_db)
           {| id := "003424062"; number := "4000000034240624";
              pin := "1234"; balance := 0 |}).
  - reflexivity.
  - reflexivity.
  - exact one_card_reachable.
  - apply list_elem_of_here.
Defined.

(** C2, as the code has it. Over the 15 digits of '400000' + accountNumber
    (indices 0..14) the code doubles the digit at every even index,
    subtracts 9 from every value over 9, sums the 15 values into control
    and returns (10 - (control mod 10)) mod 10; for account number
    "003424062" that digit is 4. *)
Theorem generate_checksum_formula (account_number : string) :
  digit_string account_number = true ->
  String.length account_number = 9%nat ->
  length (digit_values ("400000" +:+ account_number)) = 15%nat
  /\ generate_checksum account_number = Ok (spec_checksum_digit account_number)
  /\ generate_checksum "003424062" = Ok 4.
Proof.
  intros Hd Hlen. split; [|split].
  - rewrite length_digit_values, string_length_app, Hlen. done.
  - by apply generate_checksum_spec.
  - by vm_compute.
Qed.

Lemma generate_checksum_formula_witness :
  length (digit_values ("400000" +:+ "003424062")) = 15%nat
  /\ generate_checksum "003424062" = Ok (spec_checksum_digit "003424062")
  /\ generate_checksum "003424062" = Ok 4.
Proof.
  apply (generate_checksum_formula "003424062"); reflexivity.
Defined.

(** C2 as stated fails on its example: for account number "003424062" the
    code, and the stated formula, give the digit 4 and not 8, and
    "4000000034240628" does not pass the validation. *)
Lemma checksum_of_example_is_not_8 :
  generate_checksum "003424062" = Ok 4
  /\ spec_checksum_digit "003424062" = 4
  /\ generate_checksum "003424062" <> Ok 8
  /\ passes_luhn "4000000034240628" = Ok false
  /\ passes_luhn "4000000034240624" = Ok true.
Proof. repeat split; by vm_compute. Qed.

(** C3. On a string of 16 digits [passes_luhn] takes the first 15 digits
    as payload and the last as check digit, applies the even-index
    doubling and the subtraction of 9 to the payload, sums into control,
    and returns true exactly when (control + checkDigit) mod 10 = 0. *)
Theorem passes_luhn_formula (card_num : string) :
  digit_string card_num = true ->
  String.length card_num = 16%nat ->
  passes_luhn card_num = Ok (spec_luhn_validate card_num).
Proof.
  intros Hd Hlen.
  pose proof (length_digit_values card_num) as Hl. rewrite Hlen in Hl.
  destruct (lookup_lt_is_Some_2 (digit_values card_num) 15) as [d Hd15]; [lia|].
  unfold spec_luhn_validate. rewrite Hd15. simpl.
  apply passes_luhn_snoc.
  rewrite (int_list_digits _ Hd). f_equal.
  rewrite <- (take_S_r _ _ _ Hd15). symmetry. apply take_ge. lia.
Qed.

Lemma passes_luhn_formula_witness :
  passes_luhn "4000000034240624" = Ok (spec_luhn_validate "4000000034240624").
Proof.
  apply (passes_luhn_formula "4000000034240624"); reflexivity.
Defined.

(** ** The ledger *)

(** C4. Balance conservation: a transfer that reports success was between
    two distinct stored cards, debits the source by the amount and credits
    the destination by it, so the sum of the two balances is as before,
    and the rows of every other card number are unchanged. *)
Theorem transfer_conserves_balance (db db' : database) (A B : string) (amount : Z) :
  do_transfer db A B amount = (Ok Success, db') ->
  A <> B
  /\ (exists a b a' b',
        get_balance db A = Some a /\ get_balance db B = Some b
        /\ get_balance db' A = Some a' /\ get_balance db' B = Some b'
        /\ a' = a - amount /\ b' = b + amount
        /\ a' + b' = a + b)
  /\ (forall C, C <> A -> C <> B ->
        select_by_number db' C = select_by_number db C
        /\ get_balance db' C = get_balance db C).
Proof.
  intros (fb & tb & _ & Hne & Hf & Ht & _ & ->)%do_transfer_Success.
  split; [done|]. split.
  - exists fb, tb, (fb - amount), (tb + amount).
    repeat split; try done; try lia.
    + rewrite get_balance_update_other by done.
      apply get_balance_update_same. by eexists.
    + apply get_balance_update_same.
      rewrite get_balance_update_other by congruence. by eexists.
  - intros C HA HB.
    assert (Hsel : select_by_number
                     (update_rows (update_rows db A (fb - amount)) B (tb + amount)) C
                   = select_by_number db C)
      by (by rewrite !select_update_other).
    split; [done|]. unfold get_balance. by rewrite Hsel.
Qed.

Lemma transfer_conserves_balance_witness :
  "4000000034240624" <> "4000000000000010"
  /\ (exists a b a' b',
        get_balance two_card_db "4000000034240624" = Some a
        /\ get_balance two_card_db "4000000000000010" = Some b
        /\ get_balance
             (update_rows (update_rows two_card_db "4000000034240624" 6)
                "4000000000000010" 7) "4000000034240624" = Some a'
        /\ get_balance
             (update_rows (update_rows two_card_db "4000000034240624" 6)
                "4000000000000010" 7) "4000000000000010" = Some b'
        /\ a' = a - 4 /\ b' = b + 4
        /\ a' + b' = a + b)
  /\ (forall C, C <> "4000000034240624" -> C <> "4000000000000010" ->
        select_by_number
          (update_rows (update_rows two_card_db "4000000034240624" 6)
             "4000000000000010" 7) C
        = select_by_number two_card_db C
        /\ get_balance
             (update_rows (update_rows two_card_db "4000000034240624" 6)
                "4000000000000010" 7) C
           = get_balance two_card_db C).
Proof.
  apply (transfer_conserves_balance two_card_db _
           "4000000034240624" "4000000000000010" 4).
  reflexivity.
Defined.

(** The uniqueness query compares the nine-digit draw with the [number]
    column, which holds sixteen-digit card numbers. *)
Lemma first_draw_is_taken (db : database) (d : Z) (draws : list Z) :
  stored_ok db -> 0 <= d <= 999999999 ->
  generate_account_number db (d :: draws) = Some (format_0d 9 d).
Proof.
  intros Hdb Hd. simpl.
  destruct (account_number_format d Hd) as [_ Hlen].
  assert (Hnone : get_balance db (format_0d 9 d) = None).
  { apply get_balance_None. intros Hin.
    unfold stored_ok in Hdb. rewrite Forall_forall in Hdb.
    destruct (Hdb _ Hin) as (_ & _ & H16). rewrite Hlen in H16. discriminate. }
  unfold get_balance in Hnone.
  by destruct (fetchone (select_by_number db (format_0d 9 d))).
Qed.

(** C5, the code at the failing input: with the same draw 3424062 in two
    successive calls of [create_card] on a fresh table, no redraw happens
    (the second listed draw 7 is not used) and both rows get the card
    number 4000000034240624; the resulting table is reachable. *)
Theorem sequential_creates_repeat_card_number :
  exists a1 db1 a2 db2,
    create_card [] [3424062; 7] 1234 = Some (Ok (a1, db1))
    /\ create_card db1 [3424062; 7] 5678 = Some (Ok (a2, db2))
    /\ card_number a1 = "4000000034240624"
    /\ card_number a2 = "4000000034240624"
    /\ map number db2 = ["4000000034240624"; "4000000034240624"]
    /\ reachable (start db2).
Proof.
  eexists _, _, _, _.
  split; [by vm_compute|]. split; [by vm_compute|].
  split; [done|]. split; [done|]. split; [done|].
  apply (reachable_step (start one_card_db) 1
           {| numbers := [3424062; 7]; pin_draw := 5678;
              typed_card := ""; typed_pin := ""; typed_amount := 0 |}).
  - exact one_card_reachable.
  - split; [repeat constructor; lia | simpl; lia].
  - by vm_compute.
Qed.

(** C6. Insufficient funds: when the amount exceeds the balance of the
    source card the table is left as it was, whatever the destination; and
    when the destination has passed the Luhn, same-account and existence
    checks the outcome is 'Not enough money!'. *)
Theorem transfer_insufficient_funds (db : database) (from to : string) (amount b : Z) :
  get_balance db from = Some b -> amount > b ->
  (do_transfer db from to amount).2 = db
  /\ (passes_luhn to = Ok true -> from <> to -> is_Some (get_balance db to) ->
      do_transfer db from to amount = (Ok NotEnoughMoney, db)).
Proof.
  intros Hb Hgt.
  assert (Hcmp : (amount >? b) = true) by (rewrite Z.gtb_ltb; apply Z.ltb_lt; lia).
  unfold do_transfer. split.
  - destruct (passes_luhn to) as [[]|]; [|done..].
    destruct (decide (from = to)); [done|].
    destruct (get_balance db to); [|done].
    by rewrite Hb, Hcmp.
  - intros -> Hne [tb ->]. by rewrite decide_False, Hb, Hcmp.
Qed.

Lemma transfer_insufficient_funds_witness :
  (do_transfer two_card_db "4000000034240624" "4000000000000010" 11).2 = two_card_db
  /\ (passes_luhn "4000000000000010" = Ok true ->
      "4000000034240624" <> "4000000000000010" ->
      is_Some (get_balance two_card_db "4000000000000010") ->
      do_transfer two_card_db "4000000034240624" "4000000000000010" 11
      = (Ok NotEnoughMoney, two_card_db)).
Proof.
  apply (transfer_insufficient_funds two_card_db
           "4000000034240624" "4000000000000010" 11 10).
  - reflexivity.
  - reflexivity.
Defined.

(** ** Signs of amounts and balances *)

Lemma nonnegative_get_balance (db : database) (c : string) (b : Z) :
  nonnegative db -> get_balance db c = Some b -> 0 <= b.
Proof.
  unfold nonnegative, get_balance, fetchone, select_by_number. intros Hdb.
  destruct (filter _ db) as [|r rs] eqn:Hf; simpl; [done|].
  intros [= <-].
  assert (Hr : r ∈ filter (fun r => number r = c) db)
    by (rewrite Hf; apply list_elem_of_here).
  apply list_elem_of_filter in Hr as [_ Hr].
  rewrite Forall_forall in Hdb. by apply Hdb.
Qed.

Lemma nonnegative_update_rows (db : database) (c : string) (b : Z) :
  nonnegative db -> 0 <= b -> nonnegative (update_rows db c b).
Proof.
  unfold nonnegative, update_rows. intros Hdb Hb.
  induction Hdb as [|r db Hr _ IH]; simpl; constructor; [|done].
  by destruct (decide (number r = c)).
Qed.

Lemma nonnegative_update_balance (db db' : database) (c : string) (amount : Z) :
  nonnegative db ->
  (forall b, get_balance db c = Some b -> 0 <= b + amount) ->
  update_balance db c amount = Ok db' ->
  nonnegative db'.
Proof.
  intros Hdb Hsum (b & Hb & _ & ->)%update_balance_Ok.
  apply nonnegative_update_rows; [done|]. by apply Hsum.
Qed.

Lemma nonnegative_do_transfer (db : database) (from to : string) (amount : Z) :
  nonnegative db -> 0 <= amount ->
  nonnegative (do_transfer db from to amount).2.
Proof.
  intros Hdb Ha. unfold do_transfer.
  destruct (passes_luhn to) as [[]|]; [|done..].
  destruct (decide (from = to)); [done|].
  destruct (get_balance db to); [|done].
  destruct (get_balance db from) as [fb|] eqn:Hf; [|done].
  destruct (amount >? fb) eqn:Hgt; [done|].
  rewrite Z.gtb_ltb in Hgt. apply Z.ltb_ge in Hgt.
  destruct (update_balance db from (- amount)) as [db1|] eqn:H1; [|done].
  assert (Hdb1 : nonnegative db1).
  { eapply nonnegative_update_balance; [exact Hdb| |exact H1].
    intros b Hb. rewrite Hf in Hb. injection Hb as <-. lia. }
  destruct (update_balance db1 to amount) as [db2|] eqn:H2; simpl; [|done].
  eapply nonnegative_update_balance; [exact Hdb1| |exact H2].
  intros b Hb. pose proof (nonnegative_get_balance _ _ _ Hdb1 Hb). lia.
Qed.

Lemma nonnegative_create_card (db db' : database) (draws : list Z) (p : Z) (a : Account) :
  nonnegative db -> create_card db draws p = Some (Ok (a, db')) -> nonnegative db'.
Proof.
  intros Hdb. unfold create_card, new_Account.
  destruct (generate_account_number db draws) as [acct|]; [|done].
  destruct (generate_checksum acct) as [c|]; simpl; [|done].
  intros [= <- <-]. apply Forall_app. split; [done|].
  constructor; [simpl; lia|constructor].
Qed.

Lemma nonnegative_close_account (db : database) (c : string) :
  nonnegative db -> nonnegative (close_account db c).
Proof.
  unfold nonnegative, close_account. rewrite !Forall_forall.
  intros Hdb r Hr. apply Hdb. apply list_elem_of_filter in Hr. tauto.
Qed.

Lemma negative_session_reachable : reachable negative_session.
Proof.
  apply (reachable_step
           {| conn := one_card_db; active_card_number := Some "4000000034240624" |}
           2 {| numbers := []; pin_draw := 0; typed_card := ""; typed_pin := "";
                typed_amount := -5 |}).
  - apply (reachable_step (start one_card_db) 2
             {| numbers := []; pin_draw := 0; typed_card := "4000000034240624";
                typed_pin := "1234"; typed_amount := 0 |}).
    + exact one_card_reachable.
    + split; [constructor | simpl; lia].
    + by vm_compute.
  - split; [constructor | simpl; lia].
  - by vm_compute.
Qed.

(** C7, as the code has it. Every turn of the main loop (create, log in,
    add income, transfer, close) whose entered amount is not negative
    keeps all balances non-negative, in the table it leaves also when it
    crashes; so does the first leg of a transfer of such an amount that
    does not exceed the balance of the source. The sign of the amount
    itself is not checked. *)
Theorem nonnegative_preserved (s : session) (action : Z) (io : console) :
  nonnegative (conn s) -> 0 <= typed_amount io ->
  nonnegative (db_of (main_step s action io))
  /\ (forall from fb db1,
        get_balance (conn s) from = Some fb -> typed_amount io <= fb ->
        update_balance (conn s) from (- typed_amount io) = Ok db1 ->
        nonnegative db1).
Proof.
  intros Hdb Ha. split.
  - unfold main_step.
    destruct (active_card_number s) as [active|].
    + destruct (action =? 0); [done|].
      destruct (action =? 1); [done|].
      destruct (action =? 2).
      { destruct (update_balance (conn s) active (typed_amount io)) as [db|] eqn:Hu;
          simpl; [|done].
        eapply nonnegative_update_balance; [exact Hdb| |exact Hu].
        intros b Hb. pose proof (nonnegative_get_balance _ _ _ Hdb Hb). lia. }
      destruct (action =? 3).
      { pose proof (nonnegative_do_transfer (conn s) active (typed_card io)
                      (typed_amount io) Hdb Ha) as Ht.
        by destruct (do_transfer (conn s) active (typed_card io) (typed_amount io))
          as [[m|e] db]. }
      destruct (action =? 4); [by apply nonnegative_close_account|].
      by destruct (action =? 5).
    + destruct (action =? 0); [done|].
      destruct (action =? 1).
      { destruct (create_card (conn s) (numbers io) (pin_draw io)) as [[[a db]|e]|] eqn:Hc;
          simpl; [|done..].
        by eapply nonnegative_create_card. }
      by destruct (action =? 2).
  - intros from fb db1 Hf Hle H1.
    eapply nonnegative_update_balance; [exact Hdb| |exact H1].
    intros b Hb. rewrite Hf in Hb. injection Hb as <-. lia.
Qed.

Lemma nonnegative_preserved_witness :
  nonnegative
    (db_of (main_step
              {| conn := two_card_db; active_card_number := Some "4000000034240624" |}
              3 {| numbers := []; pin_draw := 0; typed_card := "4000000000000010";
                   typed_pin := ""; typed_amount := 4 |}))
  /\ (forall from fb db1,
        get_balance two_card_db from = Some fb -> 4 <= fb ->
        update_balance two_card_db from (- 4) = Ok db1 ->
        nonnegative db1).
Proof.
  apply (nonnegative_preserved
           {| conn := two_card_db; active_card_number := Some "4000000034240624" |}
           3 {| numbers := []; pin_draw := 0; typed_card := "4000000000000010";
                typed_pin := ""; typed_amount := 4 |}).
  - repeat constructor; simpl; lia.
  - simpl. lia.
Defined.

(** C7 as stated fails: after creating a card, logging in and entering
    the income -5 the stored balance is -5; and a transfer of -5 from a
    card holding 10 to a card holding 3 succeeds and leaves the
    destination at -2. *)
Lemma negative_balance_reachable :
  reachable negative_session
  /\ get_balance (conn negative_session) "4000000034240624" = Some (-5)
  /\ do_transfer two_card_db "4000000034240624" "4000000000000010" (-5)
     = (Ok Success,
        [ {| id := "003424062"; number := "4000000034240624"; pin := "1234";
             balance := 15 |};
          {| id := "000000001"; number := "4000000000000010"; pin := "0007";
             balance := -2 |} ]).
Proof.
  split; [exact negative_session_reachable|]. split; by vm_compute.
Qed.

(** C8, as the code has it. [do_transfer] compares the amount with the
    balance of the source only: once the destination has passed the Luhn,
    same-account and existence checks, a transfer of an amount <= 0 that
    does not exceed the balance of the source (any such amount when that
    balance is not negative) reports success, the source balance becomes
    balance - amount and the destination balance becomes balance + amount,
    provided both fit a 64-bit INTEGER. *)
Theorem transfer_nonpositive_amount
    (db : database) (from to : string) (amount fb tb : Z) :
  passes_luhn to = Ok true -> from <> to ->
  get_balance db to = Some tb -> get_balance db from = Some fb ->
  amount <= 0 -> amount <= fb ->
  sqlite_integer (fb - amount) = true -> sqlite_integer (tb + amount) = true ->
  exists db',
    do_transfer db from to amount = (Ok Success, db')
    /\ get_balance db' from = Some (fb - amount)
    /\ get_balance db' to = Some (tb + amount).
Proof.
  intros Hl Hne Ht Hf _ Hle Hs1 Hs2.
  eexists. rewrite (do_transfer_checked db from to amount fb tb) by done.
  rewrite Hs1. simpl. rewrite Hs2. split; [done|]. split.
  - rewrite get_balance_update_other by done.
    apply get_balance_update_same. by eexists.
  - apply get_balance_update_same.
    rewrite get_balance_update_other by congruence. by eexists.
Qed.

Lemma transfer_nonpositive_amount_witness :
  exists db',
    do_transfer two_card_db "4000000034240624" "4000000000000010" (-5)
    = (Ok Success, db')
    /\ get_balance db' "4000000034240624" = Some (10 - -5)
    /\ get_balance db' "4000000000000010" = Some (3 + -5).
Proof.
  apply (transfer_nonpositive_amount two_card_db
           "4000000034240624" "4000000000000010" (-5) 10 3);
    first [reflexivity | discriminate | lia].
Defined.

(** C8 as stated fails: transfers of 0 and of -5 between two stored cards
    both report success, and the second changes both balances. *)
Lemma nonpositive_transfer_succeeds :
  do_transfer two_card_db "4000000034240624" "4000000000000010" 0
  = (Ok Success, two_card_db)
  /\ (do_transfer two_card_db "4000000034240624" "4000000000000010" (-5)).1
     = Ok Success
  /\ get_balance
       (do_transfer two_card_db "4000000034240624" "4000000000000010" (-5)).2
       "4000000034240624" = Some 15
  /\ get_balance
       (do_transfer two_card_db "4000000034240624" "4000000000000010" (-5)).2
       "4000000000000010" = Some (-2).
Proof. repeat split; by vm_compute. Qed.

(** C9, as the code has it. A deposit checks neither the sign of the
    amount nor the presence of the card: for a stored card and any amount,
    positive or not, the balance of the card becomes balance + amount
    (when that fits a 64-bit INTEGER; otherwise an OverflowError escapes
    and the table is unchanged), the rows of other card numbers stay as
    they were and the session stays logged in; for a card number that is
    not stored a TypeError escapes and the table is unchanged. *)
Theorem deposit_semantics (db : database) (cardNumber : string) (amount : Z) :
  match get_balance db cardNumber with
  | None =>
      update_balance db cardNumber amount = Raise TypeError
      /\ deposit db cardNumber amount = Crashed TypeError db
  | Some b =>
      if sqlite_integer (b + amount)
      then exists db',
             update_balance db cardNumber amount = Ok db'
             /\ deposit db cardNumber amount
                = Running {| conn := db'; active_card_number := Some cardNumber |}
             /\ get_balance db' cardNumber = Some (b + amount)
             /\ (forall c, c <> cardNumber ->
                   select_by_number db' c = select_by_number db c)
      else update_balance db cardNumber amount = Raise OverflowError
           /\ deposit db cardNumber amount = Crashed OverflowError db
  end.
Proof.
  unfold deposit, main_step. simpl.
  destruct (get_balance db cardNumber) as [b|] eqn:Hb.
  - rewrite (update_balance_present _ _ _ _ Hb).
    destruct (sqlite_integer (b + amount)); [|done].
    eexists. split; [done|]. split; [done|]. split.
    + apply get_balance_update_same. by eexists.
    + intros c Hc. by apply select_update_other.
  - by rewrite (update_balance_absent _ _ _ Hb).
Qed.

(** C9 as stated fails: deposits of -5 and of 0 on a stored card are
    carried out (no InvalidAmount), and a deposit on a card number that is
    not stored ends the program with a TypeError (no NotFound result). *)
Lemma deposit_accepts_any_amount :
  deposit one_card_db "4000000034240624" (-5) = Running negative_session
  /\ deposit one_card_db "4000000034240624" 0
     = Running {| conn := one_card_db;
                  active_card_number := Some "4000000034240624" |}
  /\ deposit one_card_db "4000000000000010" 7 = Crashed TypeError one_card_db.
Proof. repeat split; by vm_compute. Qed.

(** C10. The source card is not checked: with a destination that passes
    the Luhn and same-account checks, a destination that is not stored is
    answered 'Such a card does not exist.' before anything is written,
    whether the source is stored or not; with a stored destination and a
    source that is not stored, the comparison of the amount with [None]
    raises a TypeError that nothing catches, the table unchanged; and
    with both stored no TypeError is raised. *)
Theorem transfer_needs_stored_source
    (db : database) (from to : string) (amount : Z) :
  passes_luhn to = Ok true -> from <> to ->
  (get_balance db to = None ->
     do_transfer db from to amount = (Ok NoSuchCard, db))
  /\ (is_Some (get_balance db to) -> get_balance db from = None ->
        do_transfer db from to amount = (Raise TypeError, db))
  /\ (is_Some (get_balance db to) -> is_Some (get_balance db from) ->
        (do_transfer db from to amount).1 <> Raise TypeError).
Proof.
  intros Hl Hne. unfold do_transfer. rewrite Hl, decide_False by done.
  split; [by intros ->|]. split.
  - by intros [tb ->] ->.
  - intros [tb Ht] [fb Hf]. rewrite Ht, Hf.
    destruct (amount >? fb); [done|].
    rewrite (update_balance_present _ _ _ _ Hf).
    destruct (sqlite_integer (fb + - amount)); [|done].
    assert (Ht1 : get_balance (update_rows db from (fb + - amount)) to = Some tb)
      by (by rewrite get_balance_update_other).
    rewrite (update_balance_present _ _ _ _ Ht1).
    by destruct (sqlite_integer (tb + amount)).
Qed.

Lemma transfer_needs_stored_source_witness :
  (get_balance one_card_db "4000000034240624" = None ->
     do_transfer one_card_db "4000000000000010" "4000000034240624" 1
     = (Ok NoSuchCard, one_card_db))
  /\ (is_Some (get_balance one_card_db "4000000034240624") ->
      get_balance one_card_db "4000000000000010" = None ->
        do_transfer one_card_db "4000000000000010" "4000000034240624" 1
        = (Raise TypeError, one_card_db))
  /\ (is_Some (get_balance one_card_db "4000000034240624") ->
      is_Some (get_balance one_card_db "4000000000000010") ->
        (do_transfer one_card_db "4000000000000010" "4000000034240624" 1).1
        <> Raise TypeError).
Proof.
  apply (transfer_needs_stored_source one_card_db
           "4000000000000010" "4000000034240624" 1).
  - reflexivity.
  - discriminate.
Defined.

(** ** Further properties of the operations *)

Lemma one_card_stored_ok : stored_ok one_card_db.
Proof. repeat constructor; by vm_compute. Qed.

(** X1. On every table the program can reach, [generate_account_number]
    takes its first draw, whatever account numbers are stored: the loop
    body is never entered. *)
Theorem generate_account_number_never_redraws
    (s : session) (d : Z) (draws : list Z) :
  reachable s -> 0 <= d <= 999999999 ->
  generate_account_number (conn s) (d :: draws) = Some (format_0d 9 d).
Proof.
  intros Hs Hd. apply first_draw_is_taken; [|done].
  by destruct (reachable_ok s Hs).
Qed.

Lemma generate_account_number_never_redraws_witness :
  generate_account_number (conn (start one_card_db)) (3424062 :: [7])
  = Some (format_0d 9 3424062).
Proof.
  apply (generate_account_number_never_redraws (start one_card_db) 3424062 [7]).
  - exact one_card_reachable.
  - lia.
Defined.

(** X2. In a session of the main loop the card that is logged in is stored,
    so [do_transfer] is called with a stored source. *)
Theorem active_card_is_stored (s : session) (c : string) :
  reachable s -> active_card_number s = Some c ->
  is_Some (get_balance (conn s) c).
Proof.
  intros Hs Hc. apply get_balance_is_Some.
  destruct (reachable_ok s Hs) as [_ Hact]. by apply Hact.
Qed.

Lemma active_card_is_stored_witness :
  is_Some (get_balance (conn negative_session) "4000000034240624").
Proof.
  apply (active_card_is_stored negative_session "4000000034240624").
  - exact negative_session_reachable.
  - reflexivity.
Defined.



(** A destination that passes the Luhn check and equals the source is
    refused as the same account, whatever the amount and the balances. *)
Lemma transfer_to_same_account (db : database) (card : string) (amount : Z) :
  passes_luhn card = Ok true ->
  do_transfer db card card amount = (Ok SameAccount, db).
Proof. intros Hl. unfold do_transfer. by rewrite Hl, decide_True. Qed.

(** A destination that fails the Luhn check is refused first and nothing
    is written. *)
Lemma transfer_to_invalid_number (db : database) (from to : string) (amount : Z) :
  passes_luhn to = Ok false ->
  do_transfer db from to amount = (Ok ProbablyMistake, db).
Proof. intros Hl. unfold do_transfer. by rewrite Hl. Qed.

(** X4. [close_account] deletes every row of the card number, whatever its
    balance, and no row of another number: afterwards the card has no
    balance, no PIN logs in to it, and the rows of any other number are
    as before. *)
Theorem close_account_deletes (db : database) (card other pin_ : string) :
  other <> card ->
  get_balance (close_account db card) card = None
  /\ login (close_account db card) card pin_ = None
  /\ select_by_number (close_account db card) other = select_by_number db other.
Proof.
  intros Hne. unfold get_balance, login, select_by_number, close_account.
  split; [|split].
  - rewrite list_filter_filter.
    replace (filter _ db) with (@nil row); [done|].
    symmetry. induction db as [|r db IH]; [done|].
    rewrite filter_cons. by destruct (decide _) as [[? ?]|_].
  - rewrite list_filter_filter.
    replace (filter _ db) with (@nil row); [done|].
    symmetry. induction db as [|r db IH]; [done|].
    rewrite filter_cons. by destruct (decide _) as [[[? ?] ?]|_].
  - rewrite list_filter_filter. apply list_filter_iff.
    intros r. split; [tauto|]. intros Hr. split; [done|]. congruence.
Qed.

Lemma close_account_deletes_witness :
  get_balance (close_account two_card_db "4000000034240624") "4000000034240624" = None
  /\ login (close_account two_card_db "4000000034240624") "4000000034240624" "1234"
     = None
  /\ select_by_number (close_account two_card_db "4000000034240624") "4000000000000010"
     = select_by_number two_card_db "4000000000000010".
Proof.
  apply (close_account_deletes two_card_db "4000000034240624" "4000000000000010"
           "1234").
  discriminate.
Defined.

(** X5. [login] succeeds exactly when a row holds both the card number and
    the PIN, and then returns that card number. *)
Theorem login_exact_match (db : database) (card_number pin_ : string) :
  login db card_number pin_
  = if decide (Exists (fun r => number r = card_number /\ pin r = pin_) db)
    then Some card_number else None.
Proof.
  unfold login, fetchone.
  destruct (filter _ db) as [|r rs] eqn:Hf; simpl.
  - rewrite decide_False; [done|].
    intros (r & Hr & HP)%Exists_exists.
    assert (Hin : r ∈ filter (fun r => number r = card_number /\ pin r = pin_) db)
      by (by apply list_elem_of_filter).
    rewrite Hf in Hin. by apply elem_of_nil in Hin.
  - assert (Hr : r ∈ filter (fun r => number r = card_number /\ pin r = pin_) db)
      by (rewrite Hf; apply list_elem_of_here).
    apply list_elem_of_filter in Hr as [[Hn Hp] Hr].
    rewrite decide_True; [by rewrite Hn|].
    apply Exists_exists. by exists r.
Qed.

(** X6. The PIN of a new card is four digits. *)
Theorem generate_pin_format (pin_draw : Z) :
  0 <= pin_draw <= 9999 ->
  digit_string (generate_pin pin_draw) = true
  /\ String.length (generate_pin pin_draw) = 4%nat.
Proof.
  intros Hp. apply format_0d_digits; [lia|].
  change (10 ^ Z.of_nat 4) with 10000. lia.
Qed.

Lemma generate_pin_format_witness :
  digit_string (generate_pin 7) = true /\ String.length (generate_pin 7) = 4%nat.
Proof. apply (generate_pin_format 7). lia. Defined.

(** ** Outcomes of the Luhn check on any string *)

Lemma ints_of_non_digits (cs : list ascii) :
  forallb is_digit cs = false -> ints_of_chars cs = Raise ValueError.
Proof.
  induction cs as [|c cs IH]; simpl; [done|].
  destruct (is_digit c) eqn:Hc; simpl.
  - intros Hcs. by rewrite (int_of_char_digit c Hc), (IH Hcs).
  - intros _. by rewrite (int_of_char_other c Hc).
Qed.

Lemma luhn_sum_snoc (ds : list Z) (d : Z) :
  luhn_sum (ds ++ [d]) = spec_control ds + d.
Proof.
  unfold luhn_sum. rewrite length_app, last_snoc. simpl.
  replace (length ds + 1 - 1)%nat with (length ds) by lia.
  by rewrite take_app_length.
Qed.

Lemma passes_luhn_digits (s : string) :
  digit_string s = true -> s <> "" ->
  passes_luhn s = Ok (luhn_sum (digit_values s) mod 10 =? 0).
Proof.
  intros Hd Hne.
  destruct (digit_values s) as [|x xs] eqn:Hds using rev_ind.
  - destruct s; [done|]. discriminate.
  - clear IHxs. rewrite luhn_sum_snoc. apply passes_luhn_snoc.
    by rewrite (int_list_digits _ Hd), Hds.
Qed.

Lemma passes_luhn_raises (s : string) (e : exn) :
  passes_luhn s = Raise e -> e = ValueError \/ e = IndexError.
Proof.
  destruct (digit_string s) eqn:Hd.
  - destruct (decide (s = "")) as [->|Hne].
    + intros [= <-]. by right.
    + by rewrite (passes_luhn_digits s Hd Hne).
  - unfold passes_luhn, int_list. rewrite ints_of_non_digits by done.
    intros [= <-]. by left.
Qed.


(** ** What the check digit detects *)

Lemma foldr_add_app (l k : list Z) :
  foldr Z.add 0 (l ++ k) = foldr Z.add 0 l + foldr Z.add 0 k.
Proof. induction l as [|x l IH]; simpl; [done|]. rewrite IH. lia. Qed.

Lemma luhn_sum_weights (ds : list Z) :
  luhn_sum ds = foldr Z.add 0 (imap (luhn_weight (length ds)) ds).
Proof.
  destruct ds as [|x xs _] using rev_ind; [done|].
  rewrite luhn_sum_snoc, imap_app, foldr_add_app, length_app. simpl.
  unfold spec_control. f_equal.
  - f_equal. apply imap_ext. intros i d Hi%lookup_lt_Some.
    unfold luhn_weight. rewrite decide_False by lia. done.
  - unfold luhn_weight. rewrite decide_True by lia. lia.
Qed.

Lemma sum_imap_at (f : nat -> Z -> Z) (l1 l2 : list Z) (x : Z) :
  foldr Z.add 0 (imap f (l1 ++ x :: l2))
  = foldr Z.add 0 (imap f l1) + f (length l1) x
    + foldr Z.add 0 (imap ((fun n => f (length l1 + n)%nat) ∘ S) l2).
Proof.
  rewrite imap_app, foldr_add_app, imap_cons. simpl.
  rewrite Nat.add_0_r. lia.
Qed.

Lemma digit_value_inj (c c' : ascii) :
  digit_value c = digit_value c' -> c = c'.
Proof.
  unfold digit_value. intros H.
  assert (Hn : N_of_ascii c = N_of_ascii c') by lia.
  rewrite <- (ascii_N_embedding c), <- (ascii_N_embedding c'). by rewrite Hn.
Qed.

Lemma luhn_weight_separates (n i : nat) (d d' : Z) :
  0 <= d <= 9 -> 0 <= d' <= 9 -> d <> d' ->
  (luhn_weight n i d - luhn_weight n i d') mod 10 <> 0.
Proof.
  intros Hd Hd' Hne. unfold luhn_weight, luhn_reduce.
  destruct (decide (S i = n)); destruct (Nat.even i);
    repeat match goal with
           | |- context [?a >? ?b] =>
               let H := fresh in
               destruct (a >? b) eqn:H;
               rewrite Z.gtb_ltb in H;
               [apply Z.ltb_lt in H | apply Z.ltb_ge in H]
           end;
    intros Hm; apply Z.mod_divide in Hm; try lia;
    destruct Hm as [k Hk]; lia.
Qed.

Lemma digits_of_chars_split (pre post : list ascii) (c : ascii) :
  digit_values (String.string_of_list_ascii (pre ++ c :: post))
  = map digit_value pre ++ digit_value c :: map digit_value post.
Proof. unfold digit_values. by rewrite list_ascii_of_list, map_app. Qed.

Lemma digit_chars_split (pre post : list ascii) (c : ascii) :
  digit_string (String.string_of_list_ascii (pre ++ c :: post))
  = forallb is_digit pre && (is_digit c && forallb is_digit post).
Proof. unfold digit_string. by rewrite list_ascii_of_list, forallb_app. Qed.

Lemma string_of_chars_nonempty (pre post : list ascii) (c : ascii) :
  String.string_of_list_ascii (pre ++ c :: post) <> "".
Proof. by destruct pre. Qed.

(** X8. One wrong digit is detected: if a string of digits, of any
    length, passes [passes_luhn], the string with one digit replaced by a
    different digit, at any position (the check digit included), does
    not. *)
Theorem luhn_detects_wrong_digit (pre post : list ascii) (c c' : ascii) :
  forallb is_digit pre = true -> forallb is_digit post = true ->
  is_digit c = true -> is_digit c' = true -> c <> c' ->
  passes_luhn (String.string_of_list_ascii (pre ++ c :: post)) = Ok true ->
  passes_luhn (String.string_of_list_ascii (pre ++ c' :: post)) = Ok false.
Proof.
  intros Hpre Hpost Hc Hc' Hne.
  rewrite !passes_luhn_digits
    by (try apply string_of_chars_nonempty; rewrite digit_chars_split;
        by rewrite Hpre, Hpost, ?Hc, ?Hc').
  rewrite !digits_of_chars_split, !luhn_sum_weights, !length_app. simpl.
  rewrite !sum_imap_at.
  set (n := (length (map digit_value pre) + S (length (map digit_value post)))%nat).
  set (A := foldr Z.add 0 _). set (B := foldr Z.add 0 _).
  intros [= Hok%Z.eqb_eq]. f_equal. apply Z.eqb_neq. intros Hbad.
  apply (luhn_weight_separates n (length (map digit_value pre))
           (digit_value c) (digit_value c')).
  - by apply digit_value_range.
  - by apply digit_value_range.
  - intros Heq. by apply Hne, digit_value_inj.
  - apply Z.mod_divide in Hok as [k Hk]; [|lia].
    apply Z.mod_divide in Hbad as [k' Hk']; [|lia].
    apply Z.mod_divide; [lia|]. exists (k - k'). lia.
Qed.

Lemma luhn_detects_wrong_digit_witness :
  passes_luhn (String.string_of_list_ascii
                 (String.list_ascii_of_string "40000000342406"
                    ++ "3"%char :: String.list_ascii_of_string "4"))
  = Ok false.
Proof.
  apply (luhn_detects_wrong_digit
           (String.list_ascii_of_string "40000000342406")
           (String.list_ascii_of_string "4") "2"%char "3"%char);
    first [reflexivity | discriminate].
Defined.

Lemma luhn_weight_swap (n i : nat) (x y : Z) :
  Nat.even n = true -> (S i < n)%nat ->
  0 <= x <= 9 -> 0 <= y <= 9 -> x <> y ->
  ~ (x = 0 /\ y = 9) -> ~ (x = 9 /\ y = 0) ->
  (luhn_weight n i x + luhn_weight n (S i) y
   - (luhn_weight n i y + luhn_weight n (S i) x)) mod 10 <> 0.
Proof.
  intros Hn Hi Hx Hy Hne H09 H90. unfold luhn_weight, luhn_reduce.
  destruct (decide (S i = n)); [lia|].
  rewrite Nat.even_succ, <- Nat.negb_even.
  destruct (decide (S (S i) = n)) as [Hlast|_].
  - assert (He : Nat.even i = true).
    { rewrite <- Hlast in Hn. by rewrite Nat.even_succ_succ in Hn. }
    rewrite He.
    repeat match goal with
           | |- context [?a >? ?b] =>
               let H := fresh in
               destruct (a >? b) eqn:H;
               rewrite Z.gtb_ltb in H;
               [apply Z.ltb_lt in H | apply Z.ltb_ge in H]
           end;
      intros Hm; apply Z.mod_divide in Hm; try lia;
      destruct Hm as [k Hk]; lia.
  - destruct (Nat.even i); simpl;
      repeat match goal with
             | |- context [?a >? ?b] =>
                 let H := fresh in
                 destruct (a >? b) eqn:H;
                 rewrite Z.gtb_ltb in H;
                 [apply Z.ltb_lt in H | apply Z.ltb_ge in H]
             end;
      intros Hm; apply Z.mod_divide in Hm; try lia;
      destruct Hm as [k Hk]; lia.
Qed.

(** X9. Two neighbouring digits exchanged are detected, 0 and 9 apart:
    if a string of an even number of digits (a card number has 16) passes
    [passes_luhn], the string with two different adjacent digits swapped
    does not, unless the two digits are 0 and 9. *)
Theorem luhn_detects_swapped_neighbours (pre post : list ascii) (a b : ascii) :
  forallb is_digit pre = true -> forallb is_digit post = true ->
  is_digit a = true -> is_digit b = true ->
  Nat.even (length pre + length post) = true ->
  a <> b ->
  ~ (a = "0"%char /\ b = "9"%char) -> ~ (a = "9"%char /\ b = "0"%char) ->
  passes_luhn (String.string_of_list_ascii (pre ++ a :: b :: post)) = Ok true ->
  passes_luhn (String.string_of_list_ascii (pre ++ b :: a :: post)) = Ok false.
Proof.
  intros Hpre Hpost Ha Hb Hlen Hne H09 H90.
  rewrite !passes_luhn_digits
    by (try apply string_of_chars_nonempty; rewrite digit_chars_split; simpl;
        by rewrite Hpre, Hpost, Ha, Hb).
  rewrite !digits_of_chars_split, !luhn_sum_weights, !length_app. simpl.
  rewrite !sum_imap_at, !imap_cons. simpl.
  rewrite !length_map.
  set (n := (length pre + S (S (length post)))%nat).
  set (A := foldr Z.add 0 _). set (B := foldr Z.add 0 _).
  replace (length pre + 1)%nat with (S (length pre)) by lia.
  intros [= Hok%Z.eqb_eq]. f_equal. apply Z.eqb_neq. intros Hbad.
  apply (luhn_weight_swap n (length pre) (digit_value a) (digit_value b)).
  - subst n. replace (length pre + S (S (length post)))%nat
      with (S (S (length pre + length post))) by lia.
    by rewrite Nat.even_succ_succ.
  - subst n. lia.
  - by apply digit_value_range.
  - by apply digit_value_range.
  - intros Heq. by apply Hne, digit_value_inj.
  - intros [H0 H9]. apply H09. split; apply digit_value_inj; by rewrite ?H0, ?H9.
  - intros [H9 H0]. apply H90. split; apply digit_value_inj; by rewrite ?H0, ?H9.
  - apply Z.mod_divide in Hok as [k Hk]; [|lia].
    apply Z.mod_divide in Hbad as [k' Hk']; [|lia].
    apply Z.mod_divide; [lia|]. exists (k - k'). lia.
Qed.

Lemma luhn_detects_swapped_neighbours_witness :
  passes_luhn (String.string_of_list_ascii
                 (String.list_ascii_of_string "4000000034240"
                    ++ "2"%char :: "6"%char :: String.list_ascii_of_string "4"))
  = Ok false.
Proof.
  apply (luhn_detects_swapped_neighbours
           (String.list_ascii_of_string "4000000034240")
           (String.list_ascii_of_string "4") "6"%char "2"%char);
    first [reflexivity | discriminate | by intros [? ?]].
Defined.

(** The exception is real: 0 and 9 exchanged go unnoticed. *)
Lemma luhn_misses_09 :
  passes_luhn "4000000000000903" = Ok true
  /\ passes_luhn "4000000000009003" = Ok true.
Proof. split; by vm_compute. Qed.

(** ** Generation and validation agree in both directions *)

(** X10. After '400000' and an account number of digits, exactly one
    final digit passes [passes_luhn]: the one [generate_checksum]
    computes. *)
Theorem check_digit_is_unique (account_number : string) (c : Z) :
  digit_string account_number = true -> 0 <= c <= 9 ->
  passes_luhn (generate_card_number account_number c) = Ok true
  <-> generate_checksum account_number = Ok c.
Proof.
  intros Hd Hc.
  destruct (str_digit c Hc) as (Hsd & Hsv & _).
  rewrite (generate_checksum_spec _ Hd).
  unfold generate_card_number.
  rewrite (passes_luhn_snoc _ (digit_values ("400000" +:+ account_number)) c).
  - unfold spec_checksum_digit.
    set (control := spec_control _).
    split.
    + intros [= Hz%Z.eqb_eq]. f_equal.
      apply Z.mod_divide in Hz as [k Hk]; [|lia].
      symmetry. apply (Z.mod_unique_pos _ _ (1 - k + control / 10)); [lia|].
      pose proof (Z.div_mod control 10). lia.
    + intros [= <-]. f_equal. apply Z.eqb_eq.
      by destruct (checksum_closes control).
  - rewrite int_list_digits.
    + by rewrite !digit_values_app, Hsv, app_assoc.
    + by rewrite !digit_string_app, Hd, Hsd.
Qed.

Lemma check_digit_is_unique_witness :
  passes_luhn (generate_card_number "003424062" 4) = Ok true
  <-> generate_checksum "003424062" = Ok 4.
Proof. apply (check_digit_is_unique "003424062" 4); [reflexivity | lia]. Defined.

(** ** Account numbers are read back *)

Lemma int_of_digits_zeros (k : nat) (ds : list Z) :
  int_of_digits (replicate k 0 ++ ds) = int_of_digits ds.
Proof.
  unfold int_of_digits. rewrite foldl_app. f_equal.
  induction k as [|k IH]; simpl; [done|]. exact IH.
Qed.

Lemma format_0d_read_back (w : nat) (z : Z) :
  0 <= z -> int_of_str (format_0d w z) = Ok z.
Proof.
  intros Hz. unfold format_0d.
  destruct (z <? 0) eqn:Hneg; [apply Z.ltb_lt in Hneg; lia|].
  pose proof (int_of_str_N (Z.to_N z)) as Hn. rewrite Z2N.id in Hn by done.
  set (s := str_N (Z.to_N z)) in *.
  assert (Hs : digit_string s = true).
  { unfold digit_string, s, str_N. rewrite list_ascii_of_list.
    apply decimal_digits_are_digits. }
  unfold int_of_str in *. rewrite (int_list_digits _ Hs) in Hn. simpl in Hn.
  rewrite int_list_digits
    by (unfold digit_string; rewrite zfill_chars, forallb_app, forallb_replicate_zero;
        exact Hs).
  simpl. unfold digit_values. rewrite zfill_chars, map_app.
  fold (digit_values s).
  replace (map digit_value (replicate (w - String.length s) "0"%char))
    with (replicate (w - String.length s) 0)
    by (induction (w - String.length s)%nat as [|k IH]; simpl; [done|]; by rewrite <- IH).
  destruct (digit_values s) as [|x xs] eqn:Hds; [done|].
  injection Hn as Hn.
  destruct (replicate _ 0 ++ x :: xs) eqn:Happ.
  - by apply app_eq_nil in Happ as [_ ?].
  - rewrite <- Happ, int_of_digits_zeros. by rewrite Hn.
Qed.

(** Rendering with leading zeros loses nothing. *)
Lemma format_0d_inj (w : nat) (z z' : Z) :
  0 <= z -> 0 <= z' -> format_0d w z = format_0d w z' -> z = z'.
Proof.
  intros Hz Hz' Heq.
  pose proof (format_0d_read_back w z Hz) as H1.
  rewrite Heq, (format_0d_read_back w z' Hz') in H1. by injection H1.
Qed.

Lemma string_app_inj_length (a a' b b' : string) :
  String.length a = String.length a' ->
  a +:+ b = a' +:+ b' -> a = a'.
Proof.
  intros Hlen Heq.
  assert (Hl : String.list_ascii_of_string a ++ String.list_ascii_of_string b
               = String.list_ascii_of_string a' ++ String.list_ascii_of_string b')
    by (by rewrite <- !list_ascii_app, Heq).
  apply app_inj_1 in Hl as [Hl _]; [|by rewrite <- !string_length_list].
  rewrite <- (String.string_of_list_ascii_of_string a),
          <- (String.string_of_list_ascii_of_string a'). by rewrite Hl.
Qed.

(** The account the constructor builds from a first draw, on a table the
    program has written. *)
Lemma create_card_eq (db : database) (d : Z) (draws : list Z) (pin_draw : Z) :
  stored_ok db -> 0 <= d <= 999999999 ->
  create_card db (d :: draws) pin_draw
  = Some (Ok ({| account_number := format_0d 9 d;
                 checksum := spec_checksum_digit (format_0d 9 d);
                 card_number := generate_card_number (format_0d 9 d)
                                  (spec_checksum_digit (format_0d 9 d));
                 acc_pin := generate_pin pin_draw;
                 acc_balance := 0 |},
              db ++ [ {| id := format_0d 9 d;
                         number := generate_card_number (format_0d 9 d)
                                     (spec_checksum_digit (format_0d 9 d));
                         pin := generate_pin pin_draw;
                         balance := 0 |} ])).
Proof.
  intros Hdb Hd. unfold create_card, new_Account.
  rewrite (first_draw_is_taken db d draws Hdb Hd).
  destruct (account_number_format d Hd) as [Hdig _].
  by rewrite (generate_checksum_spec _ Hdig).
Qed.

(** X11. Two cards created on tables the program has written carry the
    same card number exactly when the two random draws of the account
    number are equal; the PIN draws and the tables play no part. *)
Theorem created_card_numbers_equal_iff
    (db1 db2 db1' db2' : database) (d1 d2 : Z) (draws1 draws2 : list Z)
    (p1 p2 : Z) (a1 a2 : Account) :
  stored_ok db1 -> stored_ok db2 ->
  0 <= d1 <= 999999999 -> 0 <= d2 <= 999999999 ->
  create_card db1 (d1 :: draws1) p1 = Some (Ok (a1, db1')) ->
  create_card db2 (d2 :: draws2) p2 = Some (Ok (a2, db2')) ->
  card_number a1 = card_number a2 <-> d1 = d2.
Proof.
  intros Hdb1 Hdb2 Hd1 Hd2.
  rewrite (create_card_eq db1 d1 draws1 p1 Hdb1 Hd1).
  rewrite (create_card_eq db2 d2 draws2 p2 Hdb2 Hd2).
  intros [= <- _] [= <- _]. simpl. split; [|by intros ->].
  unfold generate_card_number. intros Heq.
  apply String.app_inj in Heq.
  apply string_app_inj_length in Heq.
  - apply (format_0d_inj 9); [lia..|done].
  - destruct (account_number_format d1 Hd1) as [_ ->].
    by destruct (account_number_format d2 Hd2) as [_ ->].
Qed.

Lemma created_card_numbers_equal_iff_witness :
  "4000000034240624" = "4000000000000010" <-> 3424062 = 1.
Proof.
  apply (created_card_numbers_equal_iff [] one_card_db
           one_card_db
           (one_card_db ++ [ {| id := "000000001"; number := "4000000000000010";
                                pin := "0007"; balance := 0 |} ])
           3424062 1 [] [] 1234 7
           {| account_number := "003424062"; checksum := 4;
              card_number := "4000000034240624"; acc_pin := "1234";
              acc_balance := 0 |}
           {| account_number := "000000001"; checksum := 0;
              card_number := "4000000000000010"; acc_pin := "0007";
              acc_balance := 0 |}).
  - constructor.
  - exact one_card_stored_ok.
  - lia.
  - lia.
  - reflexivity.
  - reflexivity.
Defined.

(** ** How deposits and transfers add up *)

Lemma update_rows_twice (db : database) (c : string) (x y : Z) :
  update_rows (update_rows db c x) c y = update_rows db c y.
Proof.
  unfold update_rows. rewrite map_map. apply map_ext. intros r.
  destruct (decide (number r = c)) as [Hr|Hr]; simpl.
  - by rewrite decide_True.
  - by rewrite decide_False.
Qed.

Lemma update_rows_absent (db : database) (c : string) (b : Z) :
  c ∉ map number db -> update_rows db c b = db.
Proof.
  unfold update_rows. induction db as [|r db IH]; simpl; [done|].
  intros Hc. apply not_elem_of_cons in Hc as [Hr Hdb].
  rewrite decide_False by congruence. by rewrite IH.
Qed.

Lemma total_update_rows (db : database) (c : string) (old b : Z) :
  NoDup (map number db) -> get_balance db c = Some old ->
  total_balance (update_rows db c b) = total_balance db - old + b.
Proof.
  induction db as [|r db IH]; [done|].
  intros [Hr Hnd]%NoDup_cons. unfold get_balance, select_by_number.
  rewrite filter_cons. simpl.
  destruct (decide (number r = c)) as [Hc|Hc]; simpl.
  - intros [= <-]. subst c. rewrite update_rows_absent by done. lia.
  - intros Hb. fold (select_by_number db c) in Hb. fold (update_rows db c b).
    rewrite (IH Hnd); [lia|]. exact Hb.
Qed.

(** X12. Deposits add up: two deposits on a card that both go through
    leave the table that the single deposit of the sum leaves; and when
    no card number is stored twice a deposit raises the money in the table
    by exactly its amount. *)
Theorem deposits_add_up (db db1 db2 : database) (card : string) (a b : Z) :
  update_balance db card a = Ok db1 ->
  update_balance db1 card b = Ok db2 ->
  update_balance db card (a + b) = Ok db2
  /\ (NoDup (map number db) ->
      total_balance db1 = total_balance db + a
      /\ total_balance db2 = total_balance db + (a + b)).
Proof.
  intros (x & Hx & _ & ->)%update_balance_Ok (y & Hy & Hfit & ->)%update_balance_Ok.
  rewrite get_balance_update_same in Hy by (by eexists). injection Hy as <-.
  rewrite update_rows_twice.
  rewrite (update_balance_present _ _ _ _ Hx).
  replace (x + (a + b)) with (x + a + b) by lia. rewrite Hfit.
  split; [done|]. intros Hnd.
  rewrite !(total_update_rows db card x) by done. lia.
Qed.

Lemma deposits_add_up_witness :
  update_balance one_card_db "4000000034240624" (5 + -2)
  = Ok (update_rows (update_rows one_card_db "4000000034240624" 5)
          "4000000034240624" 3)
  /\ (NoDup (map number one_card_db) ->
      total_balance (update_rows one_card_db "4000000034240624" 5)
      = total_balance one_card_db + 5
      /\ total_balance (update_rows (update_rows one_card_db "4000000034240624" 5)
                          "4000000034240624" 3)
         = total_balance one_card_db + (5 + -2)).
Proof.
  apply (deposits_add_up one_card_db _ _ "4000000034240624" 5 (-2)); reflexivity.
Defined.

(** X13. A successful transfer leaves the money in the table unchanged
    when no card number is stored twice. *)
Theorem transfer_conserves_total (db db' : database) (from to : string) (amount : Z) :
  NoDup (map number db) ->
  do_transfer db from to amount = (Ok Success, db') ->
  total_balance db' = total_balance db.
Proof.
  intros Hnd (fb & tb & _ & Hne & Hf & Ht & _ & ->)%do_transfer_Success.
  rewrite (total_update_rows _ to tb).
  - rewrite (total_update_rows db from fb) by done. lia.
  - by rewrite numbers_update_rows.
  - by rewrite get_balance_update_other.
Qed.

Lemma transfer_conserves_total_witness :
  total_balance (update_rows (update_rows two_card_db "4000000034240624" 6)
                   "4000000000000010" 7)
  = total_balance two_card_db.
Proof.
  apply (transfer_conserves_total two_card_db _
           "4000000034240624" "4000000000000010" 4).
  - apply (bool_decide_unpack (NoDup (map number two_card_db))). by vm_compute.
  - reflexivity.
Defined.

(** With a card number stored twice (see C5) the rows of that number are
    all set to the balance read from the first: money appears. *)
Lemma transfer_with_duplicates_creates_money :
  let db := [ {| id := "003424062"; number := "4000000034240624"; pin := "1234";
                 balance := 10 |};
              {| id := "003424062"; number := "4000000034240624"; pin := "5678";
                 balance := 0 |};
              {| id := "000000001"; number := "4000000000000010"; pin := "0007";
                 balance := 0 |} ] in
  (do_transfer db "4000000034240624" "4000000000000010" 5).1 = Ok Success
  /\ total_balance db = 10
  /\ total_balance (do_transfer db "4000000034240624" "4000000000000010" 5).2 = 15.
Proof. repeat split; by vm_compute. Qed.

(** ** A new card *)

(** X14. After [create_card] the printed card number and PIN log in; the
    balances of all stored cards are as before; and the balance read for
    the new card number is 0 when that number was not stored, and
    otherwise the balance of the card already stored under it. *)
Theorem created_card_logs_in
    (db db' : database) (draws : list Z) (pin_draw : Z) (a : Account) :
  create_card db draws pin_draw = Some (Ok (a, db')) ->
  login db' (card_number a) (acc_pin a) = Some (card_number a)
  /\ get_balance db' (card_number a)
     = Some (default 0 (get_balance db (card_number a)))
  /\ (forall c, is_Some (get_balance db c) -> get_balance db' c = get_balance db c).
Proof.
  unfold create_card.
  destruct (new_Account db draws pin_draw) as [[acc|e]|] eqn:Hnew; [|done..].
  intros [= <- <-].
  assert (Hbal : acc_balance acc = 0).
  { unfold new_Account in Hnew.
    destruct (generate_account_number db draws) as [acct|]; [|done].
    destruct (generate_checksum acct) as [c|]; simpl in Hnew; [|done].
    by injection Hnew as <-. }
  split; [|split].
  - unfold login, fetchone. rewrite filter_app.
    destruct (filter _ db) as [|r0 rs] eqn:Hf; simpl.
    + rewrite filter_cons. by rewrite decide_True.
    + assert (Hr0 : r0 ∈ filter (fun r => number r = card_number acc
                                          /\ pin r = acc_pin acc) db)
        by (rewrite Hf; apply list_elem_of_here).
      apply list_elem_of_filter in Hr0 as [[-> _] _]. done.
  - unfold get_balance, select_by_number, fetchone. rewrite filter_app.
    destruct (filter _ db) as [|r0 rs]; simpl; [|done].
    rewrite filter_cons. rewrite decide_True by done. simpl. by rewrite Hbal.
  - intros c. unfold get_balance, select_by_number, fetchone. rewrite filter_app.
    destruct (filter _ db) as [|r0 rs]; simpl; [|done]. by intros [? ?].
Qed.

Lemma created_card_logs_in_witness :
  login one_card_db "4000000034240624" "1234" = Some "4000000034240624"
  /\ get_balance one_card_db "4000000034240624"
     = Some (default 0 (get_balance [] "4000000034240624"))
  /\ (forall c, is_Some (get_balance [] c) ->
        get_balance one_card_db c = get_balance [] c).
Proof.
  apply (created_card_logs_in [] one_card_db [3424062] 1234
           {| account_number := "003424062"; checksum := 4;
              card_number := "4000000034240624"; acc_pin := "1234";
              acc_balance := 0 |}).
  reflexivity.
Defined.

(** ** What a turn of the loop can touch *)

Lemma select_close_other (db : database) (c other : string) :
  other <> c ->
  select_by_number (close_account db c) other = select_by_number db other.
Proof.
  intros Hne. unfold select_by_number, close_account.
  rewrite list_filter_filter. apply list_filter_iff.
  intros r. split; [tauto|]. intros Hr. split; [done|]. congruence.
Qed.

Lemma select_app (db db2 : database) (c : string) :
  select_by_number (db ++ db2) c = select_by_number db c ++ select_by_number db2 c.
Proof. apply filter_app. Qed.

Lemma update_balance_frame (db db' : database) (c other : string) (amount : Z) :
  other <> c -> update_balance db c amount = Ok db' ->
  select_by_number db' other = select_by_number db other.
Proof.
  intros Hne (b & _ & _ & ->)%update_balance_Ok. by apply select_update_other.
Qed.

Lemma do_transfer_frame (db : database) (from to other : string) (amount : Z) :
  other <> from -> other <> to ->
  select_by_number (do_transfer db from to amount).2 other
  = select_by_number db other.
Proof.
  intros Hf Ht. unfold do_transfer.
  destruct (passes_luhn to) as [[]|]; [|done..].
  destruct (decide (from = to)); [done|].
  destruct (get_balance db to); [|done].
  destruct (get_balance db from) as [fb|]; [|done].
  destruct (amount >? fb); [done|].
  destruct (update_balance db from (- amount)) as [db1|] eqn:H1; [|done].
  apply (update_balance_frame _ _ _ other) in H1; [|done].
  destruct (update_balance db1 to amount) as [db2|] eqn:H2; simpl; [|done].
  apply (update_balance_frame _ _ _ other) in H2; [|done]. congruence.
Qed.

Lemma create_card_appends (db db' : database) (draws : list Z) (p : Z) (a : Account) :
  create_card db draws p = Some (Ok (a, db')) ->
  exists r, db' = db ++ [r] /\ number r = card_number a /\ balance r = 0.
Proof.
  unfold create_card, new_Account.
  destruct (generate_account_number db draws) as [acct|]; [|done].
  destruct (generate_checksum acct) as [c|]; simpl; [|done].
  intros [= <- <-]. by eexists.
Qed.

(** X15. What one turn of the main loop can change.  Before a login no
    stored row is changed or deleted: the table stays as it is or gets one
    new row with balance 0.  After a login, the rows of every card number
    other than the logged-in one and the one typed as destination stay
    as they are, whatever the menu choice and the amount. *)
Theorem turn_touches_only_own_cards (s : session) (action : Z) (io : console) :
  match active_card_number s with
  | None =>
      db_of (main_step s action io) = conn s
      \/ exists r, db_of (main_step s action io) = conn s ++ [r] /\ balance r = 0
  | Some active =>
      forall other, other <> active -> other <> typed_card io ->
        select_by_number (db_of (main_step s action io)) other
        = select_by_number (conn s) other
  end.
Proof.
  unfold main_step. destruct (active_card_number s) as [active|].
  - intros other Ha Ht.
    destruct (action =? 0); [done|].
    destruct (action =? 1); [done|].
    destruct (action =? 2).
    { destruct (update_balance (conn s) active (typed_amount io)) as [db|] eqn:Hu;
        simpl; [|done].
      exact (update_balance_frame _ _ _ _ _ Ha Hu). }
    destruct (action =? 3).
    { pose proof (do_transfer_frame (conn s) active (typed_card io) other
                    (typed_amount io) Ha Ht) as Hfr.
      by destruct (do_transfer (conn s) active (typed_card io) (typed_amount io))
        as [[m|e] db]. }
    destruct (action =? 4); [by apply select_close_other|].
    by destruct (action =? 5).
  - destruct (action =? 0); [by left|].
    destruct (action =? 1).
    { destruct (create_card (conn s) (numbers io) (pin_draw io)) as [[[a db]|e]|] eqn:Hc;
        simpl; [|by left..].
      apply create_card_appends in Hc as (r & -> & _ & Hr). right. by exists r. }
    destruct (action =? 2); by left.
Qed.

(** ** The identifying columns are never rewritten *)

Section RowInvariant.
Variable P : row -> Prop.
Hypothesis P_balance : forall r b, P r -> P (with_balance r b).





End RowInvariant.








(** ** Transfers that succeed *)

(** X17. A transfer goes through when it should: to a stored card whose
    number passes the Luhn check and differs from the source, of an amount
    between 0 and the balance of the source, when the new balance of the
    destination stays below 2^63.  The source then holds balance - amount
    and the destination balance + amount. *)
Theorem transfer_succeeds (db : database) (from to : string) (amount fb tb : Z) :
  passes_luhn to = Ok true -> from <> to ->
  get_balance db from = Some fb -> get_balance db to = Some tb ->
  0 <= amount <= fb -> fb < 2 ^ 63 -> - 2 ^ 63 <= tb -> tb + amount < 2 ^ 63 ->
  exists db',
    do_transfer db from to amount = (Ok Success, db')
    /\ get_balance db' from = Some (fb - amount)
    /\ get_balance db' to = Some (tb + amount).
Proof.
  intros Hl Hne Hf Ht [Ha0 Hafb] Hfb Htb Hsum.
  assert (Hs1 : sqlite_integer (fb - amount) = true)
    by (unfold sqlite_integer; apply andb_true_iff; split;
        [apply Z.leb_le | apply Z.ltb_lt]; lia).
  assert (Hs2 : sqlite_integer (tb + amount) = true)
    by (unfold sqlite_integer; apply andb_true_iff; split;
        [apply Z.leb_le | apply Z.ltb_lt]; lia).
  eexists. rewrite (do_transfer_checked db from to amount fb tb) by done.
  rewrite Hs1. simpl. rewrite Hs2. split; [done|]. split.
  - rewrite get_balance_update_other by done.
    apply get_balance_update_same. by eexists.
  - apply get_balance_update_same.
    rewrite get_balance_update_other by congruence. by eexists.
Qed.

Lemma transfer_succeeds_witness :
  exists db',
    do_transfer two_card_db "4000000034240624" "4000000000000010" 4
    = (Ok Success, db')
    /\ get_balance db' "4000000034240624" = Some (10 - 4)
    /\ get_balance db' "4000000000000010" = Some (3 + 4).
Proof.
  apply (transfer_succeeds two_card_db
           "4000000034240624" "4000000000000010" 4 10 3);
    first [reflexivity | discriminate | lia].
Defined.

(** ** Transfers that do not succeed *)

(** X18. A transfer writes either everything, or nothing, or, in one
    case, half: if it does not report success the table is as before,
    unless the credit did not fit a 64-bit INTEGER; then the OverflowError
    escapes after the debit was committed, and the debit stays. *)
Theorem transfer_without_success (db : database) (from to : string) (amount : Z) :
  (do_transfer db from to amount).1 = Ok Success
  \/ (do_transfer db from to amount).2 = db
  \/ ((do_transfer db from to amount).1 = Raise OverflowError
      /\ exists fb tb,
           get_balance db from = Some fb /\ get_balance db to = Some tb
           /\ sqlite_integer (tb + amount) = false
           /\ (do_transfer db from to amount).2 = update_rows db from (fb - amount)).
Proof.
  unfold do_transfer.
  destruct (passes_luhn to) as [[]|]; [|by right; left..].
  destruct (decide (from = to)); [by right; left|].
  destruct (get_balance db to) as [tb|] eqn:Ht; [|by right; left].
  destruct (get_balance db from) as [fb|] eqn:Hf; [|by right; left].
  destruct (amount >? fb); [by right; left|].
  rewrite (update_balance_present _ _ _ _ Hf).
  replace (fb + - amount) with (fb - amount) by lia.
  destruct (sqlite_integer (fb - amount)); [|by right; left].
  assert (Ht1 : get_balance (update_rows db from (fb - amount)) to = Some tb)
    by (by rewrite get_balance_update_other).
  rewrite (update_balance_present _ _ _ _ Ht1).
  destruct (sqlite_integer (tb + amount)) eqn:Hfit; [by left|].
  right; right. split; [done|]. by exists fb, tb.
Qed.

(** X19. The half-done transfer: with every check passed, a debit that
    fits and a credit that would take the destination over 2^63 - 1, the
    source is debited, the destination keeps its balance, and the program
    ends with an OverflowError. *)
Theorem transfer_debits_without_credit
    (db : database) (from to : string) (amount fb tb : Z) :
  passes_luhn to = Ok true -> from <> to ->
  get_balance db from = Some fb -> get_balance db to = Some tb ->
  amount <= fb ->
  sqlite_integer (fb - amount) = true -> sqlite_integer (tb + amount) = false ->
  do_transfer db from to amount
  = (Raise OverflowError, update_rows db from (fb - amount))
  /\ get_balance (do_transfer db from to amount).2 from = Some (fb - amount)
  /\ get_balance (do_transfer db from to amount).2 to = Some tb.
Proof.
  intros Hl Hne Hf Ht Hle Hs1 Hs2.
  rewrite (do_transfer_checked db from to amount fb tb) by done.
  rewrite Hs1. simpl. rewrite Hs2. simpl. split; [done|]. split.
  - apply get_balance_update_same. by eexists.
  - by rewrite get_balance_update_other.
Qed.

Lemma transfer_debits_without_credit_witness :
  do_transfer full_card_db "4000000034240624" "4000000000000010" 1
  = (Raise OverflowError, update_rows full_card_db "4000000034240624" (10 - 1))
  /\ get_balance
       (do_transfer full_card_db "4000000034240624" "4000000000000010" 1).2
       "4000000034240624" = Some (10 - 1)
  /\ get_balance
       (do_transfer full_card_db "4000000034240624" "4000000000000010" 1).2
       "4000000000000010" = Some 9223372036854775807.
Proof.
  apply (transfer_debits_without_credit full_card_db
           "4000000034240624" "4000000000000010" 1 10 9223372036854775807);
    first [reflexivity | discriminate | lia].
Defined.

(** ** account.py: the registry keeps account numbers apart *)




(** ** Runs of the main loop *)

(** What can end a turn with an exception, in a session whose logged-in
    card is stored. *)
Lemma main_step_crash (s : session) (action : Z) (io : console) (e : exn) (db : database) :
  session_ok s -> randint_ok io ->
  main_step s action io = Crashed e db ->
  e = OverflowError
  \/ (passes_luhn (typed_card io) = Raise e /\ db = conn s
      /\ is_Some (active_card_number s) /\ action = 3).
Proof.
  intros [Hdb Hact] [Hdraws _]. unfold main_step.
  destruct (active_card_number s) as [active|] eqn:Ha.
  - specialize (Hact active eq_refl). apply get_balance_is_Some in Hact as [b Hb].
    destruct (action =? 0); [done|]. destruct (action =? 1); [done|].
    destruct (action =? 2).
    { rewrite (update_balance_present _ _ _ _ Hb).
      destruct (sqlite_integer _); [done|]. intros [= <- _]. by left. }
    destruct (action =? 3) eqn:H3.
    { apply Z.eqb_eq in H3. unfold do_transfer.
      destruct (passes_luhn (typed_card io)) as [[]|e'] eqn:Hl;
        [| done | intros [= <- <-]; right; by repeat split].
      destruct (decide (active = typed_card io)); [done|].
      destruct (get_balance (conn s) (typed_card io)) as [tb|] eqn:Ht; [|done].
      rewrite Hb. destruct (typed_amount io >? b); [done|].
      rewrite (update_balance_present _ _ _ _ Hb).
      destruct (sqlite_integer (b + - typed_amount io)); [|intros [= <- _]; by left].
      assert (Ht1 : get_balance (update_rows (conn s) active (b + - typed_amount io))
                      (typed_card io) = Some tb)
        by (by rewrite get_balance_update_other).
      rewrite (update_balance_present _ _ _ _ Ht1).
      destruct (sqlite_integer (tb + typed_amount io)); [done|].
      intros [= <- _]. by left. }
    destruct (action =? 4); [done|]. by destruct (action =? 5).
  - destruct (action =? 0); [done|].
    destruct (action =? 1).
    { destruct (create_card (conn s) (numbers io) (pin_draw io)) as [[[? ?]|e']|] eqn:Hc;
        [done| |done].
      by apply create_card_no_raise in Hc. }
    by destruct (action =? 2).
Qed.

(** X21. Which exceptions can end the program.  From a session the
    program can reach, whatever is typed, a run of the main loop is never
    ended by a TypeError: it can end with an OverflowError, or with the
    ValueError or IndexError that [passes_luhn] raises on the card number
    typed for a transfer. *)
Theorem main_loop_exceptions
    (s : session) (turns : list (Z * console)) (e : exn) (db : database) :
  reachable s -> Forall (fun t => randint_ok t.2) turns ->
  main_loop s turns = Crashed e db ->
  e = OverflowError
  \/ ((e = ValueError \/ e = IndexError)
      /\ exists t, t ∈ turns /\ t.1 = 3 /\ passes_luhn (typed_card t.2) = Raise e).
Proof.
  intros Hs Hturns. revert s Hs.
  induction Hturns as [|[action io] turns Hio _ IH]; intros s Hs; simpl; [done|].
  destruct (main_step s action io) as [s1| | |] eqn:Hstep; try done.
  - intros Hrun.
    assert (Hs1 : reachable s1)
      by (apply (reachable_step s action io); [exact Hs|exact Hio|by rewrite Hstep]).
    destruct (IH s1 Hs1 Hrun) as [?|[He (t & Ht & H3 & Hl)]]; [by left|].
    right. split; [done|]. exists t. split; [by right|done].
  - intros [= <- <-].
    destruct (main_step_crash s action io e0 db0 (reachable_ok s Hs) Hio Hstep)
      as [?|(Hl & _ & _ & H3)]; [by left|].
    right. split.
    + by apply (passes_luhn_raises (typed_card io)).
    + exists (action, io). split; [by left|done].
Qed.

Lemma main_loop_exceptions_witness :
  ValueError = OverflowError
  \/ ((ValueError = ValueError \/ ValueError = IndexError)
      /\ exists t, t ∈ [ (2, login_io); (3, bad_transfer_io) ]
                   /\ t.1 = 3 /\ passes_luhn (typed_card t.2) = Raise ValueError).
Proof.
  apply (main_loop_exceptions (start one_card_db)
           [ (2, login_io); (3, bad_transfer_io) ] ValueError one_card_db).
  - exact one_card_reachable.
  - repeat constructor; simpl; lia.
  - reflexivity.
Defined.
